(** * gha-utils: workflow model and name matching

    A shallow embedding of [workflow_model/src/workflow_file.ts] and
    [workflow_model/src/workflow_ast.ts], together with the properties of
    the name-matching heuristics ([JobModel.match], [StepModel.match]),
    of the value/AST pairing and of the derived getters.

    Conventions.
    - A JavaScript string is a [string]: a sequence of code units, here
      restricted to the 8-bit range.
    - An optional property ([name?: string]) is an [option]; [None] is
      [undefined].  [html_url : string | null] is an [option] too, with
      [None] standing for [null].
    - An operation that raises in JavaScript (a property read on
      [undefined], a failing parser) lives in the [result] monad. *)

From Stdlib Require Import String Ascii List Bool Arith Lia DecimalString.
From Stdlib Require Import NArith.
Import ListNotations.
Local Open Scope list_scope.
Local Open Scope string_scope.

Set Implicit Arguments.

(* ================================================================= *)
(** ** JavaScript built-ins used by the source *)

Module Js.

(** Exceptions the modelled code can raise. *)
Inductive error : Type :=
| TypeError      (* property access or call on undefined / null *)
| YAMLError.     (* raised by one of the two YAML parsers *)

Inductive result (A : Type) : Type :=
| Ok (a : A)
| Throw (e : error).
Arguments Ok {A} a.
Arguments Throw {A} e.

Definition ret {A} (a : A) : result A := Ok a.

Definition bind {A B} (m : result A) (k : A -> result B) : result B :=
  match m with
  | Ok a => k a
  | Throw e => Throw e
  end.

(** [x.f] or [x.m()] where [x] may be undefined. *)
Definition deref {A} (x : option A) : result A :=
  match x with
  | Some a => Ok a
  | None => Throw TypeError
  end.

(** [x === undefined] *)
Definition isUndefined {A} (x : option A) : bool :=
  match x with
  | Some _ => false
  | None => true
  end.

(** [a ?? b] with a total right operand. *)
Definition nullish {A} (a : option A) (b : A) : A :=
  match a with
  | Some v => v
  | None => b
  end.

(** [a ?? b] with an optional right operand. *)
Definition nullish_opt {A} (a b : option A) : option A :=
  match a with
  | Some v => Some v
  | None => b
  end.

(** [a === b] on strings. *)
Definition strict_eq (a b : string) : bool := String.eqb a b.

(** [a === b] where [a] may be undefined and [b] is a string. *)
Definition opt_strict_eq (a : option string) (b : string) : bool :=
  match a with
  | Some v => strict_eq v b
  | None => false
  end.

(** [s.startsWith(p)] *)
Fixpoint startsWith (s p : string) {struct p} : bool :=
  match p with
  | EmptyString => true
  | String c p' =>
      match s with
      | EmptyString => false
      | String d s' => Ascii.eqb d c && startsWith s' p'
      end
  end.

(** [s.includes(sub)] *)
Fixpoint includes (s sub : string) : bool :=
  startsWith s sub ||
  match s with
  | EmptyString => false
  | String _ s' => includes s' sub
  end.

(** [s.slice(n)] *)
Fixpoint slice (n : nat) (s : string) : string :=
  match n with
  | O => s
  | S n' =>
      match s with
      | EmptyString => EmptyString
      | String _ s' => slice n' s'
      end
  end.

(** [s.split(sep)] for a one-character separator, as the pair of the
    first piece and the remaining pieces: the array is never empty. *)
Fixpoint split_pieces (sep : ascii) (s : string) : string * list string :=
  match s with
  | EmptyString => (EmptyString, [])
  | String c s' =>
      let (h, t) := split_pieces sep s' in
      if Ascii.eqb c sep then (EmptyString, h :: t) else (String c h, t)
  end.

Definition split (sep : ascii) (s : string) : list string :=
  let (h, t) := split_pieces sep s in h :: t.

(** [arr[i]]: undefined out of range. *)
Definition index {A} (arr : list A) (i : nat) : option A := nth_error arr i.

(** Line terminators of the regular-expression dot, 8-bit range. *)
Definition isLineTerminator (c : ascii) : bool :=
  let n := nat_of_ascii c in Nat.eqb n 10 || Nat.eqb n 13.

(** White space removed by [trim], 8-bit range. *)
Definition isWhiteSpace (c : ascii) : bool :=
  let n := nat_of_ascii c in
  Nat.eqb n 9 || Nat.eqb n 10 || Nat.eqb n 11 || Nat.eqb n 12
  || Nat.eqb n 13 || Nat.eqb n 32 || Nat.eqb n 160.

Fixpoint trimStart (s : string) : string :=
  match s with
  | EmptyString => EmptyString
  | String c s' => if isWhiteSpace c then trimStart s' else s
  end.

Fixpoint trimEnd (s : string) : string :=
  match s with
  | EmptyString => EmptyString
  | String c s' =>
      match trimEnd s' with
      | EmptyString => if isWhiteSpace c then EmptyString else String c EmptyString
      | r => String c r
      end
  end.

(** [s.trim()] *)
Definition trim (s : string) : string := trimEnd (trimStart s).

(** [zip(a, b)] of [@std/collections]: as long as the shorter array. *)
Fixpoint zip {A B} (a : list A) (b : list B) : list (A * B) :=
  match a, b with
  | x :: a', y :: b' => (x, y) :: zip a' b'
  | _, _ => []
  end.

(** A substitution [${x}] in a template literal, [x] a string or undefined. *)
Definition template (x : option string) : string :=
  match x with
  | Some s => s
  | None => "undefined"
  end.

(** A substitution [${n}] in a template literal, [n] a line number. *)
Definition Number_toString (n : nat) : string :=
  NilZero.string_of_uint (Nat.to_uint n).

(** [Object.entries(o)]: an object is kept as the list of its own
    properties in enumeration order. *)
Definition object (V : Type) : Type := list (string * V).
Definition Object_entries {V} (o : object V) : list (string * V) := o.

End Js.

Notation "x <- m ;; k" := (Js.bind m (fun x => k))
  (at level 61, m at next level, right associativity).

Import Js.

(** A value of type [unknown]. *)
#[warnings="-register-all"]
Inductive unknown : Type :=
| UString (s : string)
| UNumber (n : nat)
| UBool (b : bool)
| UNull
| UArray (items : list unknown)
| UObject (props : list (string * unknown)).

(* ================================================================= *)
(** ** api_client: the file content handed to the models *)

Module FileContentResponse.
Record t : Type := mk {
  name : string;
  path : string;
  content : string;            (* base64 *)
  sha : string;
  url : string;
  html_url : option string     (* string | null *)
}.
End FileContentResponse.

Module FileContent.
Record t : Type := mk {
  raw : FileContentResponse.t;
  content : string             (* decoded text *)
}.
End FileContent.

(** [x ?? undefined] for [x : string | null]. *)
Definition null_to_undefined (x : option string) : option string :=
  nullish_opt x None.

(* ================================================================= *)
(** ** workflow_ast.ts *)

(** Nodes of [yaml-ast-parser].  A mapping keeps the text of its key
    ([key.value]); its value is [None] when the entry is empty ([null]). *)
#[warnings="-register-all"]
Inductive YAMLNode : Type :=
| YAMLScalar (startPosition : nat) (value : string)
| YamlMap (startPosition : nat) (mappings : list YAMLMapping)
| YAMLSequence (startPosition : nat) (items : list YAMLNode)
with YAMLMapping : Type :=
| Mapping (startPosition : nat) (key : string) (value : option YAMLNode).

Module Node.
Definition startPosition (n : YAMLNode) : nat :=
  match n with
  | YAMLScalar p _ | YamlMap p _ | YAMLSequence p _ => p
  end.

(** [n.mappings], undefined unless [n] is a map. *)
Definition mappings (n : YAMLNode) : option (list YAMLMapping) :=
  match n with
  | YamlMap _ ms => Some ms
  | _ => None
  end.

(** [n.items], undefined unless [n] is a sequence. *)
Definition items (n : YAMLNode) : option (list YAMLNode) :=
  match n with
  | YAMLSequence _ xs => Some xs
  | _ => None
  end.
End Node.

Module MappingNode.
Definition startPosition (m : YAMLMapping) : nat :=
  match m with Mapping p _ _ => p end.
Definition key (m : YAMLMapping) : string :=
  match m with Mapping _ k _ => k end.
Definition value (m : YAMLMapping) : option YAMLNode :=
  match m with Mapping _ _ v => v end.
End MappingNode.

(** [structured-source]: the position index of one text. *)
Module StructuredSource.
Record Position : Type := mkPosition { line : nat; column : nat }.
Record t : Type := mk { indexToPosition : nat -> Position }.
End StructuredSource.

Module StepAst.
Record t : Type := mk {
  ast : YAMLNode;
  src : StructuredSource.t
}.

Definition startLine (this : t) : nat :=
  let pos := StructuredSource.indexToPosition (src this)
               (Node.startPosition (ast this)) in
  StructuredSource.line pos.
End StepAst.

Module JobAst.
Record t : Type := mk {
  ast : YAMLMapping;
  src : StructuredSource.t
}.

Definition stepAsts (this : t) : result (option (list StepAst.t)) :=
  jobMap <- deref (MappingNode.value (ast this)) ;;
  ms <- deref (Node.mappings jobMap) ;;
  match find (fun it => strict_eq (MappingNode.key it) "steps") ms with
  | None => ret None
  | Some m =>
      stepsSeq <- deref (MappingNode.value m) ;;
      xs <- deref (Node.items stepsSeq) ;;
      ret (Some (map (fun it => StepAst.mk it (src this)) xs))
  end.

Definition startLine (this : t) : nat :=
  let pos := StructuredSource.indexToPosition (src this)
               (MappingNode.startPosition (ast this)) in
  StructuredSource.line pos.
End JobAst.

Module WorkflowAst.
Record t : Type := mk {
  ast : YAMLNode;
  src : StructuredSource.t
}.

Section Constructor.
Variable safeLoad : string -> result YAMLNode.
Variable newStructuredSource : string -> StructuredSource.t.

Definition new (yaml : string) : result t :=
  root <- safeLoad yaml ;;
  ret (mk root (newStructuredSource yaml)).
End Constructor.

Definition jobAsts (this : t) : result (list JobAst.t) :=
  ms <- deref (Node.mappings (ast this)) ;;
  let jobsMap :=
    match find (fun it => strict_eq (MappingNode.key it) "jobs") ms with
    | Some m => MappingNode.value m       (* ?.value *)
    | None => None
    end in
  jobsMap <- deref jobsMap ;;
  jms <- deref (Node.mappings jobsMap) ;;
  ret (map (fun it => JobAst.mk it (src this)) jms).
End WorkflowAst.

(* ================================================================= *)
(** ** workflow_file.ts: the parsed values *)

Module Step.
Record t : Type := mk {
  uses : option string;
  name : option string;
  run : option string;
  with_ : option (object unknown)
}.
End Step.

Module Job.
Record strategy_t : Type := mkStrategy {
  matrix : option (object unknown)
}.
Record t : Type := mk {
  name : option string;
  runs_on : string;
  uses : option string;
  steps : option (list Step.t);
  strategy : option strategy_t
}.
End Job.

Module Workflow.
Record t : Type := mk {
  name : option string;
  jobs : object Job.t
}.
End Workflow.

(* ================================================================= *)
(** ** workflow_file.ts: the models *)

Module StepModel.

Record uses_t : Type := mkUses {
  action : string;
  ref : option string
}.

Record t : Type := mk {
  raw : Step.t;
  name : string;
  uses : option uses_t;
  ast : StepAst.t;
  htmlUrl : option string
}.

(** [s.split("@")[0]]: the first piece always exists. *)
Definition split_at_0 (s : string) : string := fst (split_pieces "@" s).

(** [s.split("@")[1]] *)
Definition split_at_1 (s : string) : option string := index (split "@" s) 1.

(** [obj.uses ? { action: ..., ref: ... } : undefined]; the empty string
    is falsy. *)
Definition decompose (obj_uses : option string) : option uses_t :=
  match obj_uses with
  | Some (String _ _ as u) => Some (mkUses (split_at_0 u) (split_at_1 u))
  | Some EmptyString => None
  | None => None
  end.

Definition new (obj : Step.t) (fileContent : FileContent.t) (ast : StepAst.t) : t :=
  let this_uses := decompose (Step.uses obj) in
  mk obj
     (nullish
        (nullish_opt (Step.name obj)
           (nullish_opt (Step.run obj) (option_map action this_uses)))
        "")
     this_uses
     ast
     (null_to_undefined (FileContentResponse.html_url (FileContent.raw fileContent))).

Definition startLine (this : t) : nat := StepAst.startLine (ast this).

Definition htmlUrlWithLine (this : t) : string :=
  template (htmlUrl this) ++ "#L" ++ Number_toString (startLine this).

Definition showable (this : t) : string :=
  nullish
    (nullish_opt (Step.name (raw this))
       (nullish_opt (Step.uses (raw this)) (Step.run (raw this))))
    "Error: Not showable step".

(** The alternatives of [/^(Pre Run |Post Run |Pre |Run |Post )/], in
    the order the regular expression tries them. *)
Definition prefixes : list string :=
  ["Pre Run "; "Post Run "; "Pre "; "Run "; "Post "].

(** [s.replace(/^(p1|p2|...)/, "")]: the first alternative that matches
    at the start is removed, once. *)
Fixpoint replace_prefix (alts : list string) (s : string) : string :=
  match alts with
  | [] => s
  | p :: alts' =>
      if startsWith s p then slice (String.length p) s
      else replace_prefix alts' s
  end.

(** [stepModel.uses?.action === action] *)
Definition uses_action_eq (this : t) (a : string) : bool :=
  opt_strict_eq (option_map action (uses this)) a.

(** The [for ... of] loop of [match]. *)
Fixpoint match_loop (stepModels : list t) (name action : string) : option t :=
  match stepModels with
  | [] => None
  | stepModel :: rest =>
      if strict_eq (StepModel.name stepModel) name then Some stepModel
      else if uses_action_eq stepModel action then Some stepModel
      else match_loop rest name action
  end.

Definition match_ (stepModels : option (list t)) (rawName : string)
  : result (option t) :=
  if isUndefined stepModels then ret None
  else if strict_eq rawName "Set up job" || strict_eq rawName "Complete job"
  then ret None
  else
    let name := replace_prefix prefixes rawName in
    let action := split_at_0 name in
    stepModels <- deref stepModels ;;       (* the iterated array *)
    ret (match_loop stepModels name action).

Definition isComposite (this : t) : bool :=
  if opt_strict_eq (Step.uses (raw this)) "./" then false
  else if nullish (option_map (fun u => startsWith u "./") (Step.uses (raw this))) false
  then true
  else false.

End StepModel.

Module JobModel.

Record t : Type := mk {
  id : string;
  name : option string;
  fileContent : FileContent.t;
  raw : Job.t;
  ast : JobAst.t;
  htmlUrl : option string
}.

Definition new (id : string) (obj : Job.t) (fileContent : FileContent.t)
  (ast : JobAst.t) : t :=
  mk id (Job.name obj) fileContent obj ast
     (null_to_undefined (FileContentResponse.html_url (FileContent.raw fileContent))).

Definition startLine (this : t) : nat := JobAst.startLine (ast this).

Definition htmlUrlWithLine (this : t) : string :=
  template (htmlUrl this) ++ "#L" ++ Number_toString (startLine this).

Definition steps (this : t) : result (list StepModel.t) :=
  stepAsts <- JobAst.stepAsts (ast this) ;;
  if isUndefined (Job.steps (raw this)) || isUndefined stepAsts then ret []
  else
    raw_steps <- deref (Job.steps (raw this)) ;;
    stepAsts <- deref stepAsts ;;
    ret (map (fun p => StepModel.new (fst p) (fileContent this) (snd p))
             (zip raw_steps stepAsts)).

(** [this.raw.strategy?.matrix !== undefined] *)
Definition isMatrix (this : t) : bool :=
  if negb (isUndefined
             (match Job.strategy (raw this) with
              | Some st => Job.matrix st
              | None => None
              end))
  then true
  else false.

Definition isReusable (this : t) : bool :=
  if nullish (option_map (fun u => startsWith u "./") (Job.uses (raw this))) false
  then true
  else false.

(** The regular expression [/\$\{\{.+\}\}/g].

    [dot_star_close s] is the greatest [k] such that the first [k]
    characters of [s] are not line terminators and are followed by
    the two closing braces: the greedy [.*] followed by the braces. *)
Fixpoint dot_star_close (s : string) : option nat :=
  match s with
  | EmptyString => None
  | String c s' =>
      let here := if startsWith s "}}" then Some 0 else None in
      if isLineTerminator c then here
      else match dot_star_close s' with
           | Some k => Some (S k)
           | None => here
           end
  end.

(** Length of the match of the whole expression at the start of [s]. *)
Definition expression_at (s : string) : option nat :=
  if startsWith s "${{" then
    match slice 3 s with
    | EmptyString => None
    | String c s' =>
        if isLineTerminator c then None
        else option_map (fun k => 3 + S k + 2) (dot_star_close s')
    end
  else None.

(** [s.replace(/\$\{\{.+\}\}/g, "")]: matches are looked for from left to
    right, each search resuming after the previous match; [skip] counts
    the characters of the current match still to be dropped. *)
Fixpoint replace_go (skip : nat) (s : string) : string :=
  match s with
  | EmptyString => EmptyString
  | String c s' =>
      match skip with
      | S n => replace_go n s'
      | O =>
          match expression_at s with
          | Some len => replace_go (Nat.pred len) s'
          | None => String c (replace_go 0 s')
          end
      end
  end.

Definition replace_expressions (s : string) : string := replace_go 0 s.

(** The [for ... of] loop of [match]. *)
Fixpoint match_loop (jobModels : list t) (rawName : string) : result (option t) :=
  match jobModels with
  | [] => ret None
  | jobModel :: rest =>
      if strict_eq (id jobModel) rawName then ret (Some jobModel)
      else if opt_strict_eq (name jobModel) rawName then ret (Some jobModel)
      else if isMatrix jobModel then
        if startsWith rawName (id jobModel) then ret (Some jobModel)
        else if isUndefined (name jobModel) then match_loop rest rawName
        else
          jobModel_name <- deref (name jobModel) ;;   (* receiver of replace *)
          let trimedName := trim (replace_expressions jobModel_name) in
          if includes rawName trimedName then ret (Some jobModel)
          else match_loop rest rawName
      else match_loop rest rawName
  end.

Definition match_ (jobModels : option (list t)) (rawName : string)
  : result (option t) :=
  if isUndefined jobModels then ret None
  else
    jobModels <- deref jobModels ;;         (* the iterated array *)
    match_loop jobModels rawName.

End JobModel.

(** [Map] with string keys: the entries in insertion order.  Setting an
    existing key replaces its value and keeps its place. *)
Module JsMap.
Definition t (V : Type) : Type := list (string * V).

Fixpoint set {V} (k : string) (v : V) (m : t V) : t V :=
  match m with
  | [] => [(k, v)]
  | (k', v') :: m' =>
      if strict_eq k' k then (k', v) :: m' else (k', v') :: set k v m'
  end.

Definition get {V} (k : string) (m : t V) : option V :=
  match find (fun p => strict_eq (fst p) k) m with
  | Some p => Some (snd p)
  | None => None
  end.

(** [new Map(entries)] *)
Definition new {V} (entries : list (string * V)) : t V :=
  fold_left (fun m p => set (fst p) (snd p) m) entries [].

Definition keys {V} (m : t V) : list string := map fst m.
End JsMap.

(** The own properties of an ordinary object, as [Object.entries]
    lists them: the keys that are array indices in ascending numeric
    order, then the other keys in the order of their creation. *)
Module JsObject.

Definition digit (c : ascii) : option N :=
  let n := N_of_ascii c in
  if (48 <=? n)%N && (n <=? 57)%N then Some (n - 48)%N else None.

Fixpoint digits (acc : N) (s : string) : option N :=
  match s with
  | EmptyString => Some acc
  | String c s' =>
      match digit c with
      | Some d => digits (10 * acc + d)%N s'
      | None => None
      end
  end.

(** A key is an array index when it is the decimal numeral, without
    leading zero, of an integer below 2^32 - 1. *)
Definition array_index (k : string) : option N :=
  match k with
  | EmptyString => None
  | String "0" (String _ _) => None
  | _ =>
      match digits 0 k with
      | Some n => if (n <? 4294967295)%N then Some n else None
      | None => None
      end
  end.





End JsObject.

Module WorkflowModel.

Record t : Type := mk {
  fileContent : FileContent.t;
  raw : Workflow.t;
  ast : WorkflowAst.t;
  htmlUrl : option string
}.

Section Constructor.
(** The three library entry points the constructor calls:
    [parse] of [@std/yaml], [safeLoad] of [yaml-ast-parser] and the
    constructor of [StructuredSource]. *)
Variable parse : string -> result Workflow.t.
Variable safeLoad : string -> result YAMLNode.
Variable newStructuredSource : string -> StructuredSource.t.

Definition new (fileContent : FileContent.t) : result t :=
  ast <- WorkflowAst.new safeLoad newStructuredSource
           (FileContent.content fileContent) ;;
  let htmlUrl :=
    null_to_undefined (FileContentResponse.html_url (FileContent.raw fileContent)) in
  raw <- parse (FileContent.content fileContent) ;;
  ret (mk fileContent raw ast htmlUrl).
End Constructor.

Definition name (this : t) : string :=
  nullish (Workflow.name (raw this))
          (FileContentResponse.path (FileContent.raw (fileContent this))).

Definition jobs (this : t) : result (list JobModel.t) :=
  let entries := Object_entries (Workflow.jobs (raw this)) in
  jobAsts <- WorkflowAst.jobAsts (ast this) ;;
  ret (map (fun p => JobModel.new (fst (fst p)) (snd (fst p))
                       (fileContent this) (snd p))
           (zip entries jobAsts)).

Definition createWorkflowNameMap (workflowModels : list t) : JsMap.t t :=
  JsMap.new (map (fun it => (name it, it)) workflowModels).

End WorkflowModel.

Module CompositeAction.
Record runs_t : Type := mkRuns {
  using_ : string;             (* using *)
  steps : list Step.t
}.
Record t : Type := mk {
  name : string;
  description : option string;
  runs : runs_t
}.
End CompositeAction.

Module CompositeStepModel.

Record t : Type := mk {
  fileContent : FileContent.t;
  raw : CompositeAction.t;
  ast : StepAst.t              (* the one node handed to the constructor *)
}.

Section Constructor.
Variable parse : string -> result CompositeAction.t.

Definition new (fileContent : FileContent.t) (fakeAst : StepAst.t) : result t :=
  raw <- parse (FileContent.content fileContent) ;;
  ret (mk fileContent raw fakeAst).
End Constructor.

Definition steps (this : t) : list StepModel.t :=
  map (fun step => StepModel.new step (fileContent this) (ast this))
      (CompositeAction.steps (CompositeAction.runs (raw this))).

End CompositeStepModel.

(* ================================================================= *)
(** ** api_client.ts: the settings of the client *)

Module Github.

Record options_t : Type := mkOptions {
  opt_token : option string;
  opt_host : option string;
  opt_debug : option bool;
  opt_workaroundDenoTest : option bool
}.

(** The fields the constructor computes itself; the Octokit instance and
    the content cache are left out. *)
Record t : Type := mk {
  token : option string;
  baseUrl : string;
  isGHES : bool
}.

Section Env.
(** [Deno.env.get] *)
Variable env_get : string -> option string.

Definition getBaseUrl (host : option string) : string :=
  match host with
  | Some (String _ _ as host) =>
      if startsWith host "https://"
      then host ++ "/api/v3"
      else "https://" ++ host ++ "/api/v3"
  | _ =>
      match env_get "GITHUB_API_URL" with
      | Some (String _ _ as url) => url
      | _ => "https://api.github.com"
      end
  end.

Definition new (options : option options_t) : t :=
  let baseUrl :=
    getBaseUrl (match options with Some o => opt_host o | None => None end) in
  mk (nullish_opt (match options with Some o => opt_token o | None => None end)
        (nullish_opt (env_get "GITHUB_TOKEN") None))
     baseUrl
     (negb (strict_eq baseUrl "https://api.github.com")).
End Env.

End Github.

(* ================================================================= *)
(** ** Sample data *)

Module Sample.
Definition response (html_url : option string) : FileContentResponse.t :=
  FileContentResponse.mk "ci.yml" ".github/workflows/ci.yml" "" "" "" html_url.
Definition fileContent (html_url : option string) : FileContent.t :=
  FileContent.mk (response html_url) "".
Definition src : StructuredSource.t :=
  StructuredSource.mk (fun i => StructuredSource.mkPosition (S i) 0).
Definition stepAst (pos : nat) : StepAst.t :=
  StepAst.mk (YamlMap pos []) src.
Definition jobAst (pos : nat) (key : string) : JobAst.t :=
  JobAst.mk (Mapping pos key (Some (YamlMap pos []))) src.
Definition step (uses name run : option string) : StepModel.t :=
  StepModel.new (Step.mk uses name run None) (fileContent None) (stepAst 0).
Definition job (id : string) (name : option string) (matrix : bool) : JobModel.t :=
  JobModel.new id
    (Job.mk name "ubuntu-latest" None None
       (if matrix then Some (Job.mkStrategy (Some [("os", UArray [UString "ubuntu-latest"])]))
        else None))
    (fileContent None) (jobAst 0 id).

(** A workflow with the jobs [check] and [my_repo_test], as value and as
    syntax tree, and parsers that return them. *)
Definition rawJob (name : string) : Job.t :=
  Job.mk (Some name) "cloudrun" None (Some []) None.
Definition workflow (name : option string) : Workflow.t :=
  Workflow.mk name [("check", rawJob "check job"); ("my_repo_test", rawJob "test job")].
Definition jobEntries : list YAMLMapping :=
  [Mapping 14 "check" (Some (YamlMap 25 []));
   Mapping 40 "my_repo_test" (Some (YamlMap 58 []))].
Definition tree : YAMLNode :=
  YamlMap 0 [Mapping 0 "name" (Some (YAMLScalar 6 "CI"));
             Mapping 9 "jobs" (Some (YamlMap 14 jobEntries))].
Definition parse (w : Workflow.t) : string -> result Workflow.t :=
  fun _ => Ok w.
Definition safeLoad (root : YAMLNode) : string -> result YAMLNode :=
  fun _ => Ok root.
Definition newStructuredSource : string -> StructuredSource.t :=
  fun _ => src.
End Sample.

(** A run job with two steps and a call job, as values and as syntax
    trees. *)
Module Fixture.
Definition checkout : Step.t := Step.mk (Some "actions/checkout@v4") None None None.
Definition fmt : Step.t := Step.mk None None (Some "deno fmt --check") None.
Definition stepItems : list YAMLNode := [YamlMap 52 []; YamlMap 80 []].
Definition runJobEntry : YAMLMapping :=
  Mapping 14 "check"
    (Some (YamlMap 25 [Mapping 25 "runs-on" (Some (YAMLScalar 34 "ubuntu-latest"));
                       Mapping 48 "steps" (Some (YAMLSequence 50 stepItems))])).
Definition callJobEntry : YAMLMapping :=
  Mapping 5 "call"
    (Some (YamlMap 10 [Mapping 10 "uses" (Some (YAMLScalar 16 "./.github/workflows/x.yml"))])).
Definition runJob : JobModel.t :=
  JobModel.new "check"
    (Job.mk None "ubuntu-latest" None (Some [checkout; fmt]) None)
    (Sample.fileContent (Some "https://github.com/o/r/blob/main/ci.yml"))
    (JobAst.mk runJobEntry Sample.src).
Definition callJob : JobModel.t :=
  JobModel.new "call"
    (Job.mk None "" (Some "./.github/workflows/x.yml") None None)
    (Sample.fileContent None)
    (JobAst.mk callJobEntry Sample.src).
Definition workflowModel : WorkflowModel.t :=
  WorkflowModel.mk (Sample.fileContent None) (Sample.workflow (Some "CI"))
    (WorkflowAst.mk Sample.tree Sample.src) None.
Definition composite : CompositeStepModel.t :=
  CompositeStepModel.mk (Sample.fileContent None)
    (CompositeAction.mk "setup" None (CompositeAction.mkRuns "composite" [checkout; fmt]))
    (Sample.stepAst 7).
End Fixture.

(* ================================================================= *)
(** ** Vocabulary of the specification *)

(** The character [c] does not occur in [s]. *)
Definition free_of (c : ascii) (s : string) : Prop :=
  ~ In c (list_ascii_of_string s).

(** [a] is the text of [s] before its first ['@'] (all of [s] when
    there is none). *)
Definition before_first_at (s a : string) : Prop :=
  free_of "@" a /\ (s = a \/ exists t, s = a ++ String "@" t).

(** [r] is the first element of [l], in list order, that satisfies [P];
    it is absent exactly when no element does. *)
Definition first_such {A} (P : A -> Prop) (l : list A) (r : option A) : Prop :=
  match r with
  | Some x => exists l1 l2, l = (l1 ++ x :: l2)%list /\ P x /\ forall y, In y l1 -> ~ P y
  | None => forall y, In y l -> ~ P y
  end.

(** [r] is [s] without the first alternative of [alts], in the order of
    [alts], that [s] starts with; [s] itself when it starts with none. *)
Definition stripped_once (alts : list string) (s r : string) : Prop :=
  (exists pre p post,
      alts = (pre ++ p :: post)%list /\ s = p ++ r /\
      forall q, In q pre -> forall t, s <> q ++ t)
  \/ ((forall q, In q alts -> forall t, s <> q ++ t) /\ r = s).

(** What [StepModel.match] looks for, given the stripped name. *)
Definition step_accepts (name : string) (s : StepModel.t) : Prop :=
  StepModel.name s = name
  \/ exists u, StepModel.uses s = Some u /\ before_first_at name (StepModel.action u).

(** What one turn of the loop of [JobModel.match] accepts. *)
Definition job_accepts (rawName : string) (j : JobModel.t) : Prop :=
  JobModel.id j = rawName
  \/ JobModel.name j = Some rawName
  \/ (JobModel.isMatrix j = true /\
      ((exists rest, rawName = JobModel.id j ++ rest)
       \/ exists n a b,
            JobModel.name j = Some n /\
            rawName = a ++ trim (JobModel.replace_expressions n) ++ b)).

(** The matrix rule as the specification words it: the prefix test on
    the id is for jobs without a declared name, the substring test for
    jobs with one. *)
Definition matrix_rule_as_specified (rawName : string) (j : JobModel.t) : Prop :=
  match JobModel.name j with
  | None => exists rest, rawName = JobModel.id j ++ rest
  | Some n =>
      exists a b, rawName = a ++ trim (JobModel.replace_expressions n) ++ b
  end.

(** The decomposition of [uses] as the specification words it: split at
    the last ['@']. *)
Definition uses_split_at_last_at : Prop :=
  forall (obj : Step.t) fc ast (u a r : string),
    Step.uses obj = Some u ->
    u = a ++ String "@" r ->
    free_of "@" r ->
    StepModel.uses (StepModel.new obj fc ast)
    = Some (StepModel.mkUses a (Some r)).


(* ================================================================= *)
(** ** Facts about the built-ins *)

Section JsFacts.

Lemma strict_eq_iff (a b : string) : strict_eq a b = true <-> a = b.
Proof. apply String.eqb_eq. Qed.

Lemma strict_eq_false_iff (a b : string) : strict_eq a b = false <-> a <> b.
Proof. apply String.eqb_neq. Qed.

Lemma opt_strict_eq_iff (a : option string) (b : string) :
  opt_strict_eq a b = true <-> a = Some b.
Proof.
  destruct a as [v|]; simpl.
  - rewrite strict_eq_iff. split; congruence.
  - split; discriminate.
Qed.

Lemma startsWith_iff (s p : string) :
  startsWith s p = true <-> exists r, s = p ++ r.
Proof.
  revert s. induction p as [|c p IH]; intros s; simpl.
  - split; [intros _; now exists s | reflexivity].
  - destruct s as [|d s].
    + split; [discriminate | intros [r Hr]; discriminate].
    + rewrite andb_true_iff, Ascii.eqb_eq, IH. split.
      * intros [-> [r ->]]. now exists r.
      * intros [r Hr]. injection Hr as -> ->. split; [reflexivity | now exists r].
Qed.

Lemma startsWith_false_iff (s p : string) :
  startsWith s p = false <-> forall r, s <> p ++ r.
Proof.
  rewrite <- not_true_iff_false, startsWith_iff. split.
  - intros H r E. apply H. now exists r.
  - intros H [r E]. exact (H r E).
Qed.

Lemma slice_length_app (p r : string) : slice (String.length p) (p ++ r) = r.
Proof. induction p as [|c p IH]; simpl; auto. Qed.

Lemma includes_iff (s sub : string) :
  includes s sub = true <-> exists a b, s = a ++ sub ++ b.
Proof.
  induction s as [|c s IH].
  - simpl. rewrite orb_false_r, startsWith_iff. split.
    + intros [r Hr]. now exists EmptyString, r.
    + intros [a [b H]]. destruct a as [|x a]; [now exists b | discriminate].
  - cbn [includes]. rewrite orb_true_iff, startsWith_iff, IH. split.
    + intros [[r Hr] | [a [b H]]].
      * now exists EmptyString, r.
      * exists (String c a), b. simpl. now rewrite H.
    + intros [a [b H]]. destruct a as [|x a].
      * left. now exists b.
      * right. simpl in H. injection H as _ H. now exists a, b.
Qed.

Lemma free_of_cons (c d : ascii) (s : string) :
  free_of c (String d s) <-> d <> c /\ free_of c s.
Proof. unfold free_of. simpl. tauto. Qed.

Lemma split_pieces_free (sep : ascii) (a : string) :
  free_of sep a -> split_pieces sep a = (a, []).
Proof.
  induction a as [|c a IH]; intros H; simpl.
  - reflexivity.
  - apply free_of_cons in H as [Hc Ha]. rewrite (IH Ha).
    apply Ascii.eqb_neq in Hc. now rewrite Hc.
Qed.

Lemma split_pieces_app (sep : ascii) (a r : string) :
  free_of sep a ->
  split_pieces sep (a ++ String sep r) = (a, split sep r).
Proof.
  unfold split. induction a as [|c a IH]; intros H; simpl.
  - destruct (split_pieces sep r). now rewrite Ascii.eqb_refl.
  - apply free_of_cons in H as [Hc Ha]. rewrite (IH Ha).
    apply Ascii.eqb_neq in Hc. now rewrite Hc.
Qed.

Lemma split_index_0 (sep : ascii) (s : string) :
  index (split sep s) 0 = Some (fst (split_pieces sep s)).
Proof. unfold split. now destruct (split_pieces sep s). Qed.

End JsFacts.

(* ================================================================= *)
(** ** Linear scans *)

Section FirstSuch.
Context {A : Type} (P : A -> Prop).

Lemma first_such_hit (x : A) (l : list A) :
  P x -> first_such P (x :: l) (Some x).
Proof.
  intros Hx. exists [], l.
  split; [reflexivity | split; [exact Hx | intros y []]].
Qed.

Lemma first_such_miss (x : A) (l : list A) (r : option A) :
  ~ P x -> first_such P l r -> first_such P (x :: l) r.
Proof.
  intros Hx. destruct r as [z|]; simpl.
  - intros (l1 & l2 & -> & Hz & Hl1). exists (x :: l1), l2.
    split; [reflexivity | split; [exact Hz|]].
    intros y [<- | Hy]; auto.
  - intros H y [<- | Hy]; auto.
Qed.

Lemma first_such_In (l : list A) (x : A) :
  first_such P l (Some x) -> In x l /\ P x.
Proof.
  intros (l1 & l2 & -> & Hx & _). split; [|exact Hx].
  apply in_or_app. right. now left.
Qed.
End FirstSuch.

(* ================================================================= *)
(** ** StepModel *)

Section StepModelFacts.

Lemma before_first_at_split (s : string) :
  before_first_at s (StepModel.split_at_0 s).
Proof.
  unfold before_first_at, StepModel.split_at_0.
  induction s as [|c s [Hfree Hs]]; simpl.
  - split; [intros [] | now left].
  - destruct (split_pieces "@" s) as [h t] eqn:E. simpl in *.
    destruct (Ascii.eqb c "@") eqn:Hc; simpl.
    + apply Ascii.eqb_eq in Hc. subst c.
      split; [intros [] | right; now exists s].
    + apply Ascii.eqb_neq in Hc. split.
      * apply free_of_cons. now split.
      * destruct Hs as [-> | [t' ->]]; [now left | right; now exists t'].
Qed.

Lemma before_first_at_unique (s a : string) :
  before_first_at s a -> StepModel.split_at_0 s = a.
Proof.
  unfold StepModel.split_at_0. intros [Hfree [-> | [t ->]]].
  - now rewrite split_pieces_free.
  - now rewrite split_pieces_app.
Qed.

Lemma split_at_0_iff (s a : string) :
  StepModel.split_at_0 s = a <-> before_first_at s a.
Proof.
  split; [intros <-; apply before_first_at_split | apply before_first_at_unique].
Qed.

Lemma split_at_1_free (a : string) :
  free_of "@" a -> StepModel.split_at_1 a = None.
Proof.
  intros H. unfold StepModel.split_at_1, split.
  now rewrite split_pieces_free.
Qed.

Lemma split_at_1_app (a r : string) :
  free_of "@" a ->
  StepModel.split_at_1 (a ++ String "@" r) = Some (StepModel.split_at_0 r).
Proof.
  intros H. unfold StepModel.split_at_1, StepModel.split_at_0.
  unfold split at 1. rewrite split_pieces_app by assumption.
  unfold split. now destruct (split_pieces "@" r).
Qed.

Lemma decompose_nonempty (u : string) :
  u <> EmptyString ->
  StepModel.decompose (Some u)
  = Some (StepModel.mkUses (StepModel.split_at_0 u) (StepModel.split_at_1 u)).
Proof. destruct u; [congruence | reflexivity]. Qed.

Lemma app_at_nonempty (a t : string) : a ++ String "@" t <> EmptyString.
Proof. destruct a; discriminate. Qed.

Lemma uses_action_eq_iff (s : StepModel.t) (name : string) :
  StepModel.uses_action_eq s (StepModel.split_at_0 name) = true
  <-> exists u, StepModel.uses s = Some u
                /\ before_first_at name (StepModel.action u).
Proof.
  unfold StepModel.uses_action_eq. rewrite opt_strict_eq_iff.
  destruct (StepModel.uses s) as [u|]; simpl; split.
  - intros H. exists u. split; [reflexivity|].
    apply split_at_0_iff. congruence.
  - intros (u' & E & H). injection E as <-.
    apply split_at_0_iff in H. congruence.
  - discriminate.
  - intros (u' & E & _). discriminate.
Qed.

Lemma replace_prefix_stripped (alts : list string) (s : string) :
  stripped_once alts s (StepModel.replace_prefix alts s).
Proof.
  induction alts as [|p alts IH]; simpl.
  - right. split; [intros q [] | reflexivity].
  - destruct (startsWith s p) eqn:Hp.
    + apply startsWith_iff in Hp as [r ->]. rewrite slice_length_app.
      left. exists [], p, alts. repeat split. intros q [].
    + pose proof (proj1 (startsWith_false_iff s p) Hp) as Hno.
      destruct IH as [(pre & p' & post & -> & Hs & Hpre) | [Hall ->]].
      * left. exists (p :: pre), p', post. repeat split; auto.
        intros q [<- | Hq]; auto.
      * right. split; [|reflexivity]. intros q [<- | Hq]; auto.
Qed.

Lemma step_match_loop_first (name : string) (l : list StepModel.t) :
  first_such (step_accepts name) l
    (StepModel.match_loop l name (StepModel.split_at_0 name)).
Proof.
  induction l as [|s l IH]; simpl.
  - intros y [].
  - destruct (strict_eq (StepModel.name s) name) eqn:E1.
    + apply first_such_hit. left. now apply strict_eq_iff.
    + destruct (StepModel.uses_action_eq s (StepModel.split_at_0 name)) eqn:E2.
      * apply first_such_hit. right. now apply uses_action_eq_iff.
      * apply first_such_miss; [|exact IH].
        intros [H | H].
        -- apply strict_eq_iff in H. congruence.
        -- apply uses_action_eq_iff in H. congruence.
Qed.

(** C2, as stated in the specification, fails: with two ['@'] the code
    keeps the text before the first one as the action and the text
    between the two as the ref. *)
Lemma uses_not_split_at_last_at : ~ uses_split_at_last_at.
Proof.
  intros H.
  specialize (H (Step.mk (Some "owner/action@user@fix") None None None)
                (Sample.fileContent None) (Sample.stepAst 0)
                "owner/action@user@fix" "owner/action@user" "fix"
                eq_refl eq_refl).
  assert (Hfree : free_of "@" "fix").
  { unfold free_of. simpl. intros [E | [E | [E | []]]]; discriminate E. }
  specialize (H Hfree). vm_compute in H. discriminate H.
Qed.

(** C2 (amended): [uses] is split at every ['@'] and the first two
    pieces are kept.  The action is the text before the first ['@'];
    the ref is the text between the first ['@'] and the next one, or
    the end of the string.  A non-empty [uses] without ['@'] is the
    action as a whole, and the ref is undefined. *)
Theorem uses_split_at_first_at (obj : Step.t) (fc : FileContent.t)
  (ast : StepAst.t) (u : string) :
  Step.uses obj = Some u ->
  (forall a r : string,
      free_of "@" a -> free_of "@" r ->
      (u = a ++ String "@" r \/ exists t, u = a ++ String "@" (r ++ String "@" t)) ->
      StepModel.uses (StepModel.new obj fc ast)
      = Some (StepModel.mkUses a (Some r)))
  /\ (u <> EmptyString -> free_of "@" u ->
      StepModel.uses (StepModel.new obj fc ast)
      = Some (StepModel.mkUses u None)).
Proof.
  intros Hu. unfold StepModel.new. simpl. rewrite Hu. split.
  - intros a r Ha Hr Hshape.
    assert (Hr' : exists rest, u = a ++ String "@" rest /\ before_first_at rest r).
    { destruct Hshape as [-> | [t ->]].
      - exists r. split; [reflexivity|]. split; [assumption | now left].
      - exists (r ++ String "@" t). split; [reflexivity|].
        split; [assumption | right; now exists t]. }
    destruct Hr' as (rest & -> & Hrest).
    rewrite decompose_nonempty by apply app_at_nonempty.
    rewrite split_at_1_app by assumption.
    rewrite (before_first_at_unique Hrest).
    f_equal. f_equal. apply before_first_at_unique.
    split; [assumption | right; now exists rest].
  - intros Hne Hfree. rewrite decompose_nonempty by assumption.
    rewrite split_at_1_free by assumption.
    f_equal. f_equal. apply before_first_at_unique.
    split; [assumption | now left].
Qed.

Lemma uses_split_at_first_at_witness :
  StepModel.uses (Sample.step (Some "owner/action@user@fix") None None)
  = Some (StepModel.mkUses "owner/action" (Some "user")).
Proof.
  refine (proj1 (@uses_split_at_first_at
                   (Step.mk (Some "owner/action@user@fix") None None None)
                   (Sample.fileContent None) (Sample.stepAst 0)
                   "owner/action@user@fix" eq_refl)
                "owner/action" "user" _ _ _).
  - unfold free_of. simpl. intuition discriminate.
  - unfold free_of. simpl. intuition discriminate.
  - right. exists "fix". reflexivity.
Defined.

(** C4: for a raw name that is not a pseudo-step name, [StepModel.match]
    removes at most one leading prefix, the first of ["Pre Run "],
    ["Post Run "], ["Pre "], ["Run "], ["Post "] that the raw name starts
    with, and returns the first step, in list order, whose resolved name
    is the stripped name or whose [uses.action] is the text of the
    stripped name before its first ['@']; it returns absent when no step
    is such. *)
Theorem StepModel_match_spec (stepModels : list StepModel.t) (rawName : string) :
  rawName <> "Set up job" ->
  rawName <> "Complete job" ->
  exists (name : string) (r : option StepModel.t),
    stripped_once ["Pre Run "; "Post Run "; "Pre "; "Run "; "Post "] rawName name
    /\ StepModel.match_ (Some stepModels) rawName = Ok r
    /\ first_such (step_accepts name) stepModels r.
Proof.
  intros H1 H2.
  exists (StepModel.replace_prefix StepModel.prefixes rawName).
  eexists. split; [apply (replace_prefix_stripped StepModel.prefixes)|].
  unfold StepModel.match_. simpl.
  apply strict_eq_false_iff in H1, H2. rewrite H1, H2. simpl.
  split; [reflexivity | apply step_match_loop_first].
Qed.

Lemma StepModel_match_spec_witness :
  exists (name : string) (r : option StepModel.t),
    stripped_once ["Pre Run "; "Post Run "; "Pre "; "Run "; "Post "]
      "Run deno fmt --check" name
    /\ StepModel.match_
         (Some [Sample.step (Some "actions/checkout@v4") None None;
                Sample.step None None (Some "deno fmt --check")])
         "Run deno fmt --check" = Ok r
    /\ first_such (step_accepts name)
         [Sample.step (Some "actions/checkout@v4") None None;
          Sample.step None None (Some "deno fmt --check")] r.
Proof.
  apply (@StepModel_match_spec
           [Sample.step (Some "actions/checkout@v4") None None;
            Sample.step None None (Some "deno fmt --check")]
           "Run deno fmt --check"); discriminate.
Defined.

(** C5: [StepModel.match] returns absent for the raw names
    ["Set up job"] and ["Complete job"], whatever the step models. *)
Theorem StepModel_match_pseudo_steps (stepModels : option (list StepModel.t)) :
  StepModel.match_ stepModels "Set up job" = Ok None
  /\ StepModel.match_ stepModels "Complete job" = Ok None.
Proof. destruct stepModels; split; reflexivity. Qed.

(** C6: [isComposite] is true exactly when the raw [uses] string starts
    with ["./"] and is not ["./"] itself; so it is false for ["./"],
    true for ["./.github/actions/foo"], false for
    ["actions/checkout@v4"] and false without [uses]. *)
Theorem isComposite_spec :
  (forall s : StepModel.t,
      StepModel.isComposite s = true
      <-> exists u, Step.uses (StepModel.raw s) = Some u
                    /\ (exists rest, u = "./" ++ rest) /\ u <> "./")
  /\ StepModel.isComposite (Sample.step (Some "./") None None) = false
  /\ StepModel.isComposite
       (Sample.step (Some "./.github/actions/foo") None None) = true
  /\ StepModel.isComposite
       (Sample.step (Some "actions/checkout@v4") None None) = false
  /\ StepModel.isComposite (Sample.step None None None) = false.
Proof.
  split; [|repeat split; reflexivity].
  intros s. unfold StepModel.isComposite.
  destruct (Step.uses (StepModel.raw s)) as [u|];
    cbn [opt_strict_eq option_map nullish].
  - destruct (strict_eq u "./") eqn:E.
    + apply strict_eq_iff in E. split; [discriminate|].
      intros (u' & Hu & _ & Hne). congruence.
    + apply strict_eq_false_iff in E.
      destruct (startsWith u "./") eqn:Hp.
      * split; [intros _ | reflexivity].
        exists u. apply startsWith_iff in Hp. auto.
      * split; [discriminate|].
        intros (u' & Hu & Hpre & _). injection Hu as <-.
        apply (proj2 (startsWith_iff u "./")) in Hpre. congruence.
  - split; [discriminate | intros (u & Hu & _); discriminate].
Qed.

End StepModelFacts.

(* ================================================================= *)
(** ** JobModel *)

Section JobModelFacts.

Lemma isMatrix_iff (j : JobModel.t) :
  JobModel.isMatrix j = true
  <-> exists st m, Job.strategy (JobModel.raw j) = Some st
                   /\ Job.matrix st = Some m.
Proof.
  unfold JobModel.isMatrix.
  destruct (Job.strategy (JobModel.raw j)) as [st|]; simpl.
  - destruct (Job.matrix st) as [m|] eqn:E; simpl; split; try discriminate.
    + intros _. now exists st, m.
    + reflexivity.
    + intros (st' & m & Hst & Hm). injection Hst as <-. congruence.
  - split; [discriminate | intros (st & m & Hst & _); discriminate].
Qed.

(** One turn of the loop: the candidate is returned exactly when
    [job_accepts] holds of it, otherwise the scan goes on; no turn
    raises. *)
Lemma job_match_loop_step (j : JobModel.t) (rest : list JobModel.t)
  (rawName : string) :
  (job_accepts rawName j
   /\ JobModel.match_loop (j :: rest) rawName = Ok (Some j))
  \/ (~ job_accepts rawName j
      /\ JobModel.match_loop (j :: rest) rawName
         = JobModel.match_loop rest rawName).
Proof.
  cbn [JobModel.match_loop]. unfold job_accepts.
  destruct (strict_eq (JobModel.id j) rawName) eqn:Eid.
  { left. apply strict_eq_iff in Eid. auto. }
  apply strict_eq_false_iff in Eid.
  destruct (opt_strict_eq (JobModel.name j) rawName) eqn:Ename.
  { left. apply opt_strict_eq_iff in Ename. auto. }
  assert (Hname : JobModel.name j <> Some rawName).
  { intros H. apply opt_strict_eq_iff in H. congruence. }
  destruct (JobModel.isMatrix j) eqn:Em.
  2:{ right. split; [|reflexivity]. intros [H | [H | [H _]]]; congruence. }
  destruct (startsWith rawName (JobModel.id j)) eqn:Epre.
  { left. apply startsWith_iff in Epre. split; [|reflexivity].
    right. right. split; [reflexivity | now left]. }
  pose proof (proj1 (startsWith_false_iff _ _) Epre) as Hpre.
  destruct (JobModel.name j) as [n|] eqn:En; cbn [isUndefined deref bind].
  - destruct (includes rawName (trim (JobModel.replace_expressions n))) eqn:Einc.
    + left. apply includes_iff in Einc as (a & b & Hab).
      split; [|reflexivity]. right. right. split; [reflexivity|].
      right. now exists n, a, b.
    + right. split; [|reflexivity].
      intros [H | [H | [_ [[r Hr] | (n' & a & b & Hn & Hab)]]]].
      * congruence.
      * congruence.
      * exact (Hpre r Hr).
      * injection Hn as <-.
        assert (includes rawName (trim (JobModel.replace_expressions n)) = true)
          by (apply includes_iff; now exists a, b).
        congruence.
  - right. split; [|reflexivity].
    intros [H | [H | [_ [[r Hr] | (n' & a & b & Hn & Hab)]]]].
    + congruence.
    + congruence.
    + exact (Hpre r Hr).
    + discriminate Hn.
Qed.

Lemma job_match_loop_first (l : list JobModel.t) (rawName : string) :
  exists r, JobModel.match_loop l rawName = Ok r
            /\ first_such (job_accepts rawName) l r.
Proof.
  induction l as [|j l (r & Hr & Hfirst)].
  - exists None. split; [reflexivity | intros y []].
  - destruct (job_match_loop_step j l rawName) as [[Hacc ->] | [Hrej ->]].
    + exists (Some j). split; [reflexivity | now apply first_such_hit].
    + exists r. split; [exact Hr | now apply first_such_miss].
Qed.

(** The rule of the specification is honoured by the code for every
    matrix job: what it accepts, the loop accepts. *)
Lemma matrix_rule_as_specified_accepted (rawName : string) (j : JobModel.t) :
  JobModel.isMatrix j = true ->
  matrix_rule_as_specified rawName j -> job_accepts rawName j.
Proof.
  unfold matrix_rule_as_specified, job_accepts. intros Hm H.
  right. right. split; [exact Hm|].
  destruct (JobModel.name j) as [n|].
  - destruct H as (a & b & H). right. now exists n, a, b.
  - now left.
Qed.

(** For a matrix job without a declared name the two coincide. *)
Lemma matrix_rule_unnamed (rawName : string) (j : JobModel.t) :
  JobModel.isMatrix j = true ->
  JobModel.name j = None ->
  (job_accepts rawName j <-> exists rest, rawName = JobModel.id j ++ rest).
Proof.
  intros Hm Hn. unfold job_accepts. rewrite Hn. split.
  - intros [H | [H | [_ [H | (n & a & b & H & _)]]]]; try discriminate.
    + exists EmptyString. rewrite <- H. clear. induction (JobModel.id j); simpl; congruence.
    + exact H.
  - intros H. right. right. auto.
Qed.

(** The expression pattern is greedy: with two expressions in a name,
    the text between them goes as well. *)
Example replace_expressions_greedy :
  JobModel.replace_expressions "Test ${{ matrix.a }} on ${{ matrix.b }}"
  = "Test ".
Proof. reflexivity. Qed.

(** C1: on the matrix job [build], declared name
    ["Build ${{ matrix.os }}"], and the raw name ["build-docs"], the
    code returns the job because the raw name starts with the id,
    although the job has a declared name and the raw name does not
    contain ["Build"], the name without its expression: the
    starts-with-id test is not restricted to jobs without a name. *)
Theorem matrix_named_job_matched_by_id_prefix :
  let j := Sample.job "build" (Some "Build ${{ matrix.os }}") true in
  JobModel.isMatrix j = true
  /\ JobModel.name j = Some "Build ${{ matrix.os }}"
  /\ trim (JobModel.replace_expressions "Build ${{ matrix.os }}") = "Build"
  /\ includes "build-docs" "Build" = false
  /\ ~ matrix_rule_as_specified "build-docs" j
  /\ JobModel.match_ (Some [j]) "build-docs" = Ok (Some j).
Proof.
  cbv zeta. repeat split.
  unfold matrix_rule_as_specified. cbn [Sample.job JobModel.new JobModel.name].
  intros (a & b & H).
  assert (E : includes "build-docs" "Build" = true)
    by (apply includes_iff; exists a, b; exact H).
  discriminate E.
Qed.

(** C9: [JobModel.match] returns the first candidate, in list order,
    that any of the rules accepts: every rule is tried on a candidate
    before the next candidate is looked at.  So the matrix job [test],
    whose id is a strict prefix of the raw name ["test-e2e"], is returned
    although the next candidate has exactly that id. *)
Theorem JobModel_match_per_candidate :
  (forall (jobModels : list JobModel.t) (rawName : string),
      exists r, JobModel.match_ (Some jobModels) rawName = Ok r
                /\ first_such (job_accepts rawName) jobModels r)
  /\ exists (first later : JobModel.t) (rawName rest : string),
       JobModel.isMatrix first = true
       /\ rawName = JobModel.id first ++ rest
       /\ rest <> EmptyString
       /\ JobModel.id later = rawName
       /\ JobModel.match_ (Some [first; later]) rawName = Ok (Some first).
Proof.
  split.
  - intros jobModels rawName. apply job_match_loop_first.
  - exists (Sample.job "test" None true), (Sample.job "test-e2e" None false),
      "test-e2e", "-e2e".
    repeat split. discriminate.
Qed.

End JobModelFacts.

(* ================================================================= *)
(** ** Lookup misses *)

(** C7: both [match] functions return a value on every input, a model
    of the given list or the absent value; neither raises. *)
Theorem match_never_throws :
  (forall (jobModels : option (list JobModel.t)) (rawName : string),
      exists r, JobModel.match_ jobModels rawName = Ok r
                /\ match r with
                   | Some j => exists l, jobModels = Some l /\ In j l
                   | None => True
                   end)
  /\ (forall (stepModels : option (list StepModel.t)) (rawName : string),
         exists r, StepModel.match_ stepModels rawName = Ok r
                   /\ match r with
                      | Some s => exists l, stepModels = Some l /\ In s l
                      | None => True
                      end).
Proof.
  split.
  - intros [l|] rawName.
    + destruct (job_match_loop_first l rawName) as (r & Hr & Hfirst).
      exists r. split; [exact Hr|].
      destruct r as [j|]; [|exact I].
      exists l. split; [reflexivity|]. now apply first_such_In in Hfirst.
    + exists None. split; [reflexivity | exact I].
  - intros [l|] rawName.
    + unfold StepModel.match_. cbn [isUndefined].
      destruct (strict_eq rawName "Set up job" || strict_eq rawName "Complete job").
      * exists None. split; [reflexivity | exact I].
      * cbn [deref bind ret]. eexists. split; [reflexivity|].
        pose proof (step_match_loop_first
                      (StepModel.replace_prefix StepModel.prefixes rawName) l) as H.
        destruct (StepModel.match_loop l _ _) as [s|]; [|exact I].
        exists l. split; [reflexivity|]. now apply first_such_In in H.
    + exists None. split; [reflexivity | exact I].
Qed.

(* ================================================================= *)
(** ** WorkflowModel *)

Section ZipFacts.
Context {A B : Type}.

Lemma zip_length (a : list A) (b : list B) :
  List.length (zip a b) = Nat.min (List.length a) (List.length b).
Proof.
  revert b. induction a as [|x a IH]; intros [|y b]; simpl; auto.
Qed.

Lemma zip_nth_error (a : list A) (b : list B) (i : nat) (x : A) (y : B) :
  nth_error a i = Some x -> nth_error b i = Some y ->
  nth_error (zip a b) i = Some (x, y).
Proof.
  revert b i. induction a as [|x' a IH]; intros [|y' b] [|i]; simpl;
    try discriminate.
  - congruence.
  - apply IH.
Qed.
End ZipFacts.

Lemma find_first_key (k : string) (pre post : list YAMLMapping) (m : YAMLMapping) :
  (forall x, In x pre -> MappingNode.key x <> k) ->
  MappingNode.key m = k ->
  find (fun it => strict_eq (MappingNode.key it) k) (pre ++ m :: post)%list
  = Some m.
Proof.
  intros Hpre Hm. induction pre as [|x pre IH]; simpl.
  - apply strict_eq_iff in Hm. now rewrite Hm.
  - assert (Hx : strict_eq (MappingNode.key x) k = false).
    { apply strict_eq_false_iff. apply Hpre. now left. }
    rewrite Hx. apply IH. intros y Hy. apply Hpre. now right.
Qed.

Section WorkflowModelFacts.
Variable parse : string -> result Workflow.t.
Variable safeLoad : string -> result YAMLNode.
Variable newStructuredSource : string -> StructuredSource.t.

Let new := WorkflowModel.new parse safeLoad newStructuredSource.

(** Pairing under key agreement: when the parsed value lists its jobs
    under the keys of the tree entries [ms], in the same order,
    [WorkflowModel.jobs] has one model per entry, and the model at index
    [i] carries the [i]-th key as its id, the [i]-th parsed job and the
    [i]-th entry of the syntax tree. *)
Lemma jobs_pairing (fc : FileContent.t) (w : Workflow.t)
  (p0 p1 p2 : nat) (pre post ms : list YAMLMapping) :
  parse (FileContent.content fc) = Ok w ->
  safeLoad (FileContent.content fc)
  = Ok (YamlMap p0 (pre ++ Mapping p1 "jobs" (Some (YamlMap p2 ms)) :: post)%list) ->
  (forall m, In m pre -> MappingNode.key m <> "jobs") ->
  map fst (Object_entries (Workflow.jobs w)) = map MappingNode.key ms ->
  exists (wm : WorkflowModel.t) (js : list JobModel.t),
    new fc = Ok wm
    /\ WorkflowModel.jobs wm = Ok js
    /\ List.length js = List.length ms
    /\ forall i, i < List.length ms ->
         exists (j : JobModel.t) (m : YAMLMapping) (job : Job.t),
           nth_error js i = Some j
           /\ nth_error ms i = Some m
           /\ nth_error (Object_entries (Workflow.jobs w)) i
              = Some (MappingNode.key m, job)
           /\ JobModel.id j = MappingNode.key m
           /\ JobModel.raw j = job
           /\ JobAst.ast (JobModel.ast j) = m.
Proof.
  intros Hparse Hload Hpre Hkeys.
  unfold new, WorkflowModel.new, WorkflowAst.new.
  rewrite Hload, Hparse. cbn [bind ret].
  eexists. eexists. split; [reflexivity|].
  unfold WorkflowModel.jobs, WorkflowAst.jobAsts.
  cbn [WorkflowModel.ast WorkflowModel.raw WorkflowModel.fileContent
       WorkflowAst.ast WorkflowAst.src Node.mappings deref bind ret].
  rewrite (@find_first_key "jobs" pre post
             (Mapping p1 "jobs" (Some (YamlMap p2 ms))) Hpre eq_refl).
  cbn [MappingNode.value Node.mappings deref bind ret].
  split; [reflexivity|].
  assert (Hlen : List.length (Object_entries (Workflow.jobs w)) = List.length ms).
  { rewrite <- (length_map fst), Hkeys. apply length_map. }
  split.
  - rewrite length_map, zip_length, length_map, Hlen. apply Nat.min_id.
  - intros i Hi.
    destruct (nth_error ms i) as [m|] eqn:Em.
    2:{ apply nth_error_None in Em. lia. }
    destruct (nth_error (Object_entries (Workflow.jobs w)) i) as [[k job]|] eqn:Ee.
    2:{ apply nth_error_None in Ee. lia. }
    assert (Hk : k = MappingNode.key m).
    { pose proof (map_nth_error fst _ _ Ee) as H1.
      pose proof (map_nth_error MappingNode.key _ _ Em) as H2.
      rewrite Hkeys in H1. simpl in H1. congruence. }
    subst k.
    eexists. exists m, job. split.
    + apply map_nth_error. apply zip_nth_error; [exact Ee|].
      apply map_nth_error. exact Em.
    + repeat split.
Qed.

(** C8: the name of a workflow model is the top-level [name] of the
    parsed workflow when it has one, and the path of the file
    otherwise. *)
Theorem WorkflowModel_name_default (fc : FileContent.t) (w : Workflow.t)
  (wm : WorkflowModel.t) :
  parse (FileContent.content fc) = Ok w ->
  new fc = Ok wm ->
  (forall n, Workflow.name w = Some n -> WorkflowModel.name wm = n)
  /\ (Workflow.name w = None ->
      WorkflowModel.name wm = FileContentResponse.path (FileContent.raw fc)).
Proof.
  intros Hparse Hnew.
  unfold new, WorkflowModel.new, WorkflowAst.new in Hnew.
  destruct (safeLoad (FileContent.content fc)) as [root|e]; [|discriminate Hnew].
  rewrite Hparse in Hnew. cbn [bind ret] in Hnew. injection Hnew as <-.
  unfold WorkflowModel.name. cbn [WorkflowModel.raw WorkflowModel.fileContent].
  split.
  - intros n ->. reflexivity.
  - intros ->. reflexivity.
Qed.

End WorkflowModelFacts.

Lemma jobs_pairing_witness :
  exists (wm : WorkflowModel.t) (js : list JobModel.t),
    WorkflowModel.new (Sample.parse (Sample.workflow (Some "CI")))
      (Sample.safeLoad Sample.tree) Sample.newStructuredSource
      (Sample.fileContent None) = Ok wm
    /\ WorkflowModel.jobs wm = Ok js
    /\ List.length js = 2
    /\ forall i, i < 2 ->
         exists (j : JobModel.t) (m : YAMLMapping) (job : Job.t),
           nth_error js i = Some j
           /\ nth_error Sample.jobEntries i = Some m
           /\ nth_error (Object_entries (Workflow.jobs (Sample.workflow (Some "CI")))) i
              = Some (MappingNode.key m, job)
           /\ JobModel.id j = MappingNode.key m
           /\ JobModel.raw j = job
           /\ JobAst.ast (JobModel.ast j) = m.
Proof.
  apply (@jobs_pairing (Sample.parse (Sample.workflow (Some "CI")))
           (Sample.safeLoad Sample.tree) Sample.newStructuredSource
           (Sample.fileContent None) (Sample.workflow (Some "CI"))
           0 9 14 [Mapping 0 "name" (Some (YAMLScalar 6 "CI"))] []
           Sample.jobEntries).
  - reflexivity.
  - reflexivity.
  - intros m [<- | []]. discriminate.
  - reflexivity.
Defined.

Lemma WorkflowModel_name_default_witness :
  WorkflowModel.name
    (WorkflowModel.mk (Sample.fileContent None) (Sample.workflow None)
       (WorkflowAst.mk Sample.tree Sample.src) None)
  = ".github/workflows/ci.yml".
Proof.
  refine (proj2 (@WorkflowModel_name_default
                   (Sample.parse (Sample.workflow None))
                   (Sample.safeLoad Sample.tree) Sample.newStructuredSource
                   (Sample.fileContent None) (Sample.workflow None)
                   _ eq_refl eq_refl) eq_refl).
Defined.

(* ================================================================= *)
(** ** Line anchors *)

(** C10: [htmlUrlWithLine] of a job model and of a step model is the
    text of [htmlUrl], then ["#L"], then the start line.  When the file
    content has no [html_url], [htmlUrl] is undefined and the getter
    still returns a string, which starts with ["undefined#L"]. *)
Theorem htmlUrlWithLine_form (fc : FileContent.t) (id : string) (job : Job.t)
  (jobAst : JobAst.t) (step : Step.t) (stepAst : StepAst.t) :
  let j := JobModel.new id job fc jobAst in
  let s := StepModel.new step fc stepAst in
  match FileContentResponse.html_url (FileContent.raw fc) with
  | Some url =>
      JobModel.htmlUrlWithLine j
      = url ++ "#L" ++ Number_toString (JobAst.startLine jobAst)
      /\ StepModel.htmlUrlWithLine s
         = url ++ "#L" ++ Number_toString (StepAst.startLine stepAst)
  | None =>
      JobModel.htmlUrlWithLine j
      = "undefined#L" ++ Number_toString (JobAst.startLine jobAst)
      /\ StepModel.htmlUrlWithLine s
         = "undefined#L" ++ Number_toString (StepAst.startLine stepAst)
      /\ startsWith (JobModel.htmlUrlWithLine j) "undefined#L" = true
      /\ startsWith (StepModel.htmlUrlWithLine s) "undefined#L" = true
  end.
Proof.
  intros j s. subst j s.
  unfold JobModel.htmlUrlWithLine, StepModel.htmlUrlWithLine,
    JobModel.startLine, StepModel.startLine, JobModel.new, StepModel.new.
  cbn [JobModel.htmlUrl JobModel.ast StepModel.htmlUrl StepModel.ast].
  destruct (FileContentResponse.html_url (FileContent.raw fc)) as [url|];
    cbn [null_to_undefined nullish_opt template].
  - split; reflexivity.
  - repeat split.
Qed.

(* ================================================================= *)
(** ** The worked cases of the specification *)

Section Examples.

Example matrix_job_matching :
  let build := Sample.job "build" None true in
  JobModel.match_ (Some [Sample.job "lint" None false; build])
    "build (ubuntu-20.04, x86_64-unknown-linux-gnu)"
  = Ok (Some build).
Proof. reflexivity. Qed.

Example step_prefix_stripping :
  let fmt := Sample.step None None (Some "deno fmt --check") in
  StepModel.match_
    (Some [Sample.step (Some "actions/checkout@v4") None None; fmt])
    "Run deno fmt --check"
  = Ok (Some fmt).
Proof. reflexivity. Qed.

Example step_post_run_action :
  let checkout := Sample.step (Some "actions/checkout@v4") None None in
  StepModel.match_
    (Some [Sample.step None None (Some "deno lint"); checkout])
    "Post Run actions/checkout@v4"
  = Ok (Some checkout).
Proof. reflexivity. Qed.

Example only_one_prefix_is_stripped :
  StepModel.replace_prefix StepModel.prefixes "Pre Run Post x" = "Post x".
Proof. reflexivity. Qed.

Example checkout_decomposition :
  StepModel.uses (Sample.step (Some "actions/checkout@v4") None None)
  = Some (StepModel.mkUses "actions/checkout" (Some "v4")).
Proof. reflexivity. Qed.

Example empty_uses_is_no_uses :
  StepModel.uses (Sample.step (Some "") None None) = None.
Proof. reflexivity. Qed.

Example jobAsts_without_jobs_key :
  WorkflowAst.jobAsts
    (WorkflowAst.mk (YamlMap 0 [Mapping 0 "name" (Some (YAMLScalar 6 "CI"))])
       Sample.src)
  = Throw TypeError.
Proof. reflexivity. Qed.

End Examples.

(* ================================================================= *)
(** ** The workflow name map *)

Section NameMapFacts.
Context {V : Type}.

Lemma JsMap_get_set_same (k : string) (v : V) (m : JsMap.t V) :
  JsMap.get k (JsMap.set k v m) = Some v.
Proof.
  unfold JsMap.get. induction m as [|[k' v'] m IH]; simpl.
  - unfold strict_eq. now rewrite String.eqb_refl.
  - destruct (strict_eq k' k) eqn:E; simpl; rewrite E; [reflexivity | exact IH].
Qed.

Lemma JsMap_get_set_other (k k' : string) (v : V) (m : JsMap.t V) :
  k' <> k -> JsMap.get k (JsMap.set k' v m) = JsMap.get k m.
Proof.
  intros Hne. unfold JsMap.get. induction m as [|[k0 v0] m IH]; simpl.
  - apply strict_eq_false_iff in Hne. now rewrite Hne.
  - destruct (strict_eq k0 k') eqn:E; simpl.
    + apply strict_eq_iff in E. subst k0.
      apply strict_eq_false_iff in Hne. now rewrite Hne.
    + destruct (strict_eq k0 k); [reflexivity | exact IH].
Qed.

Lemma JsMap_keys_set (k k' : string) (v : V) (m : JsMap.t V) :
  In k (JsMap.keys (JsMap.set k' v m)) <-> k = k' \/ In k (JsMap.keys m).
Proof.
  unfold JsMap.keys. induction m as [|[k0 v0] m IH]; simpl.
  - intuition.
  - destruct (strict_eq k0 k') eqn:E; simpl.
    + apply strict_eq_iff in E. subst k0. intuition.
    + rewrite IH. intuition.
Qed.

Lemma JsMap_keys_set_NoDup (k : string) (v : V) (m : JsMap.t V) :
  NoDup (JsMap.keys m) -> NoDup (JsMap.keys (JsMap.set k v m)).
Proof.
  unfold JsMap.keys. induction m as [|[k0 v0] m IH]; simpl; intros Hnd.
  - constructor; [intros [] | constructor].
  - inversion Hnd as [|? ? Hnot Hnd']; subst.
    destruct (strict_eq k0 k) eqn:E; simpl.
    + constructor; assumption.
    + constructor; [|auto].
      intros Hin. apply (JsMap_keys_set k0 k v m) in Hin as [-> | Hin].
      * apply strict_eq_false_iff in E. congruence.
      * exact (Hnot Hin).
Qed.
End NameMapFacts.

Lemma find_snoc {A} (f : A -> bool) (l : list A) (x : A) :
  find f (l ++ [x])%list
  = match find f l with
    | Some y => Some y
    | None => if f x then Some x else None
    end.
Proof.
  induction l as [|y l IH]; simpl; [reflexivity|].
  destruct (f y); [reflexivity | exact IH].
Qed.

Lemma nameMap_get_fold (n : string) (ms : list WorkflowModel.t)
  (m : JsMap.t WorkflowModel.t) :
  JsMap.get n
    (fold_left (fun m p => JsMap.set (fst p) (snd p) m)
       (map (fun it => (WorkflowModel.name it, it)) ms) m)
  = match find (fun it => strict_eq (WorkflowModel.name it) n) (rev ms) with
    | Some it => Some it
    | None => JsMap.get n m
    end.
Proof.
  revert m. induction ms as [|x ms IH]; intros m; simpl; [reflexivity|].
  rewrite IH, find_snoc.
  destruct (find _ (rev ms)); [reflexivity|].
  destruct (strict_eq (WorkflowModel.name x) n) eqn:E.
  - apply strict_eq_iff in E. subst n. apply JsMap_get_set_same.
  - apply strict_eq_false_iff in E. now apply JsMap_get_set_other.
Qed.

Lemma nameMap_keys_fold (ms : list WorkflowModel.t) (m : JsMap.t WorkflowModel.t) :
  let m' := fold_left (fun m p => JsMap.set (fst p) (snd p) m)
              (map (fun it => (WorkflowModel.name it, it)) ms) m in
  (NoDup (JsMap.keys m) -> NoDup (JsMap.keys m'))
  /\ forall k, In k (JsMap.keys m')
               <-> In k (JsMap.keys m)
                   \/ exists it, In it ms /\ WorkflowModel.name it = k.
Proof.
  revert m. induction ms as [|x ms IH]; intros m; simpl.
  - split; [auto|]. intros k. split; [auto|].
    intros [H | (it & [] & _)]. exact H.
  - destruct (IH (JsMap.set (WorkflowModel.name x) x m)) as [Hnd Hin].
    split.
    + intros H. apply Hnd. now apply JsMap_keys_set_NoDup.
    + intros k. rewrite Hin, JsMap_keys_set. split.
      * intros [[-> | H] | (it & Hit & Hk)]; eauto 6.
      * intros [H | (it & [<- | Hit] & Hk)]; eauto 6.
Qed.

(** X1: looking a name up in the map built by [createWorkflowNameMap]
    gives the last model of the array that has this name, and nothing
    when no model has it. *)
Theorem createWorkflowNameMap_last_wins (ms : list WorkflowModel.t) (n : string) :
  JsMap.get n (WorkflowModel.createWorkflowNameMap ms)
  = find (fun it => strict_eq (WorkflowModel.name it) n) (rev ms).
Proof.
  unfold WorkflowModel.createWorkflowNameMap, JsMap.new.
  rewrite nameMap_get_fold. now destruct (find _ (rev ms)).
Qed.

(** X2: the keys of the map built by [createWorkflowNameMap] are the
    names of the models, each once. *)
Theorem createWorkflowNameMap_keys (ms : list WorkflowModel.t) :
  NoDup (JsMap.keys (WorkflowModel.createWorkflowNameMap ms))
  /\ forall k, In k (JsMap.keys (WorkflowModel.createWorkflowNameMap ms))
               <-> exists it, In it ms /\ WorkflowModel.name it = k.
Proof.
  destruct (nameMap_keys_fold ms []) as [Hnd Hin]. split.
  - apply Hnd. constructor.
  - intros k. unfold WorkflowModel.createWorkflowNameMap, JsMap.new.
    rewrite Hin. simpl. tauto.
Qed.

(* ================================================================= *)
(** ** Walking the syntax tree *)

Section FindFacts.
Context {A : Type} (f : A -> bool).

Lemma find_Some_split (l : list A) (x : A) :
  find f l = Some x
  <-> exists pre post,
        l = (pre ++ x :: post)%list /\ f x = true
        /\ forall y, In y pre -> f y = false.
Proof.
  induction l as [|a l IH]; simpl.
  - split; [discriminate|]. intros (pre & post & H & _). now destruct pre.
  - destruct (f a) eqn:Ea.
    + split.
      * intros [= <-]. exists [], l. split; [reflexivity|].
        split; [exact Ea | intros y []].
      * intros (pre & post & H & Hx & Hpre). destruct pre as [|b pre].
        -- now injection H as ->.
        -- injection H as <- _. rewrite (Hpre a) in Ea by now left.
           discriminate Ea.
    + rewrite IH. split.
      * intros (pre & post & -> & Hx & Hpre). exists (a :: pre), post.
        split; [reflexivity|]. split; [exact Hx|].
        intros y [<- | Hy]; auto.
      * intros (pre & post & H & Hx & Hpre). destruct pre as [|b pre].
        -- injection H as -> _. congruence.
        -- injection H as <- ->. exists pre, post.
           split; [reflexivity|]. split; [exact Hx|].
           intros y Hy. apply Hpre. now right.
Qed.

Lemma find_None_iff (l : list A) :
  find f l = None <-> forall y, In y l -> f y = false.
Proof.
  induction l as [|a l IH]; simpl.
  - split; [intros _ y [] | reflexivity].
  - destruct (f a) eqn:Ea.
    + split; [discriminate|]. intros H. rewrite (H a) in Ea by now left.
      discriminate Ea.
    + rewrite IH. split.
      * intros H y [<- | Hy]; auto.
      * intros H y Hy. apply H. now right.
Qed.
End FindFacts.

Lemma key_test_false (k : string) (l : list YAMLMapping) :
  (forall y, In y l -> strict_eq (MappingNode.key y) k = false)
  <-> (forall y, In y l -> MappingNode.key y <> k).
Proof.
  split; intros H y Hy; apply strict_eq_false_iff; auto.
Qed.

Ltac keys_neq H :=
  let H' := fresh in
  pose proof (proj1 (key_test_false _ _) H) as H'; clear H; rename H' into H.

(** X3: [jobAsts] succeeds exactly when the root is a map whose first
    [jobs] entry holds a map; it then returns one node per entry of that
    map, in order.  In every other case (root not a map, no [jobs] key,
    empty or scalar [jobs]) it raises a TypeError. *)
Theorem jobAsts_ok_iff (this : WorkflowAst.t) :
  (forall js,
      WorkflowAst.jobAsts this = Ok js
      <-> exists p pre p1 p2 ms post,
            WorkflowAst.ast this
            = YamlMap p (pre ++ Mapping p1 "jobs" (Some (YamlMap p2 ms)) :: post)%list
            /\ (forall m, In m pre -> MappingNode.key m <> "jobs")
            /\ js = map (fun it => JobAst.mk it (WorkflowAst.src this)) ms)
  /\ (forall e, WorkflowAst.jobAsts this = Throw e -> e = TypeError).
Proof.
  unfold WorkflowAst.jobAsts. split.
  - intros js. split.
    + destruct (WorkflowAst.ast this) as [p v | p ms | p xs];
        cbn [Node.mappings deref bind]; try discriminate.
      destruct (find _ ms) as [[p1 k v]|] eqn:Ef;
        cbn [MappingNode.value deref bind]; [|discriminate].
      apply find_Some_split in Ef as (pre & post & -> & Hk & Hpre).
      apply strict_eq_iff in Hk. simpl in Hk. subst k.
      keys_neq Hpre.
      destruct v as [[p2 s | p2 jms | p2 xs]|];
        cbn [Node.mappings deref bind ret]; try discriminate.
      intros [= <-]. now exists p, pre, p1, p2, jms, post.
    + intros (p & pre & p1 & p2 & ms & post & -> & Hpre & ->).
      cbn [Node.mappings deref bind].
      rewrite (@find_first_key "jobs" pre post
                 (Mapping p1 "jobs" (Some (YamlMap p2 ms))) Hpre eq_refl).
      reflexivity.
  - intros e.
    destruct (WorkflowAst.ast this) as [p v | p ms | p xs];
      cbn [Node.mappings deref bind]; try congruence.
    destruct (find _ ms) as [[p1 k [[p2 s | p2 jms | p2 xs]|]]|];
      cbn [MappingNode.value Node.mappings deref bind]; unfold ret; congruence.
Qed.

Lemma stepAsts_without_steps_key (this : JobAst.t) (p : nat)
  (ms : list YAMLMapping) :
  MappingNode.value (JobAst.ast this) = Some (YamlMap p ms) ->
  (forall m, In m ms -> MappingNode.key m <> "steps") ->
  JobAst.stepAsts this = Ok None.
Proof.
  intros Hv Hno. unfold JobAst.stepAsts. rewrite Hv.
  cbn [Node.mappings deref bind].
  assert (E : find (fun it => strict_eq (MappingNode.key it) "steps") ms = None).
  { apply find_None_iff. now apply key_test_false. }
  now rewrite E.
Qed.

Lemma stepAsts_with_steps_sequence (this : JobAst.t) (p p1 p2 : nat)
  (pre post : list YAMLMapping) (xs : list YAMLNode) :
  MappingNode.value (JobAst.ast this)
  = Some (YamlMap p (pre ++ Mapping p1 "steps" (Some (YAMLSequence p2 xs)) :: post)%list) ->
  (forall m, In m pre -> MappingNode.key m <> "steps") ->
  JobAst.stepAsts this
  = Ok (Some (map (fun it => StepAst.mk it (JobAst.src this)) xs)).
Proof.
  intros Hv Hpre. unfold JobAst.stepAsts. rewrite Hv.
  cbn [Node.mappings deref bind].
  now rewrite (@find_first_key "steps" pre post
                 (Mapping p1 "steps" (Some (YAMLSequence p2 xs))) Hpre eq_refl).
Qed.

(** X4: [stepAsts] of a job whose value is a map returns undefined
    exactly when the map has no [steps] key, and returns the items of
    the sequence, in order, exactly when the first [steps] entry holds a
    sequence.  A job entry with an empty value raises a TypeError. *)
Theorem stepAsts_cases (this : JobAst.t) :
  (JobAst.stepAsts this = Ok None
   <-> exists p ms,
         MappingNode.value (JobAst.ast this) = Some (YamlMap p ms)
         /\ forall m, In m ms -> MappingNode.key m <> "steps")
  /\ (forall l,
         JobAst.stepAsts this = Ok (Some l)
         <-> exists p pre p1 p2 xs post,
               MappingNode.value (JobAst.ast this)
               = Some (YamlMap p
                         (pre ++ Mapping p1 "steps" (Some (YAMLSequence p2 xs))
                              :: post)%list)
               /\ (forall m, In m pre -> MappingNode.key m <> "steps")
               /\ l = map (fun it => StepAst.mk it (JobAst.src this)) xs)
  /\ (MappingNode.value (JobAst.ast this) = None ->
      JobAst.stepAsts this = Throw TypeError).
Proof.
  unfold JobAst.stepAsts.
  destruct (MappingNode.value (JobAst.ast this)) as [[p s | p ms | p xs]|];
    cbn [Node.mappings deref bind].
  1,3,4: (split; [|split]);
    [ split; [discriminate | intros (? & ? & [=] & _)]
    | intros l; split; [discriminate | intros (? & ? & ? & ? & ? & ? & [=] & _)]
    | try reflexivity; discriminate ].
  destruct (find (fun it => strict_eq (MappingNode.key it) "steps") ms)
    as [[p1 k v]|] eqn:Ef.
  - pose proof Ef as Ef'.
    apply find_Some_split in Ef' as (pre & post & -> & Hk & Hpre).
    apply strict_eq_iff in Hk. simpl in Hk. subst k.
    keys_neq Hpre.
    assert (Hno : ~ (forall m, In m (pre ++ Mapping p1 "steps" v :: post)%list ->
                               MappingNode.key m <> "steps")).
    { intros H. apply (H (Mapping p1 "steps" v)); [|reflexivity].
      apply in_or_app. right. now left. }
    assert (Huniq : forall pre' p1' v' post',
               (pre ++ Mapping p1 "steps" v :: post)%list
               = (pre' ++ Mapping p1' "steps" v' :: post')%list ->
               (forall m, In m pre' -> MappingNode.key m <> "steps") ->
               v' = v).
    { intros pre' p1' v' post' E Hpre'.
      pose proof (@find_first_key "steps" pre' post'
                    (Mapping p1' "steps" v') Hpre' eq_refl) as F.
      rewrite <- E, Ef in F. now injection F. }
    split; [|split].
    + split.
      * destruct v as [[? ? | ? ? | ? ?]|];
          cbn [MappingNode.value Node.items deref bind ret]; discriminate.
      * intros (p' & ms' & [= <- <-] & H). now destruct Hno.
    + intros l. split.
      * destruct v as [[p2 s | p2 jms | p2 xs]|];
          cbn [MappingNode.value Node.items deref bind ret]; try discriminate.
        intros [= <-]. now exists p, pre, p1, p2, xs, post.
      * intros (p' & pre' & p1' & p2 & xs & post' & [= <- E] & Hpre' & ->).
        rewrite <- (Huniq _ _ _ _ E Hpre').
        reflexivity.
    + discriminate.
  - pose proof (proj1 (find_None_iff _ _) Ef) as Hnone. clear Ef.
    rename Hnone into Ef. keys_neq Ef.
    split; [|split].
    + split; [intros _; now exists p, ms | reflexivity].
    + intros l. split; [discriminate|].
      intros (p' & pre & p1 & p2 & xs & post & [= <- ->] & _ & _).
      exfalso. apply (Ef (Mapping p1 "steps" (Some (YAMLSequence p2 xs)))).
      * apply in_or_app. right. now left.
      * reflexivity.
    + discriminate.
Qed.

(* ================================================================= *)
(** ** Pairing values with tree nodes *)

Lemma zip_nth_error_inv {A B} (a : list A) (b : list B) (i : nat) (x : A) (y : B) :
  nth_error (zip a b) i = Some (x, y) ->
  nth_error a i = Some x /\ nth_error b i = Some y.
Proof.
  revert b i. induction a as [|x' a IH]; intros [|y' b] [|i]; simpl;
    try discriminate.
  - intros [= -> ->]. now split.
  - apply IH.
Qed.

Lemma map_zip_nth_error {A B C} (f : A * B -> C) (a : list A) (b : list B)
  (i : nat) (c : C) :
  nth_error (map f (zip a b)) i = Some c ->
  exists x y, nth_error a i = Some x /\ nth_error b i = Some y /\ c = f (x, y).
Proof.
  rewrite nth_error_map.
  destruct (nth_error (zip a b) i) as [[x y]|] eqn:E; simpl; [|discriminate].
  intros [= <-]. apply zip_nth_error_inv in E as [Ha Hb]. now exists x, y.
Qed.

(** X5: whenever the tree walk succeeds, [WorkflowModel.jobs] has as
    many models as the shorter of the parsed job list and the list of
    tree entries, and the model at an index is built from the parsed job
    and the tree entry at that index: nothing is reordered or skipped,
    and surplus entries on either side are dropped without an error. *)
Theorem jobs_pairs_by_index (wm : WorkflowModel.t) (asts : list JobAst.t) :
  WorkflowAst.jobAsts (WorkflowModel.ast wm) = Ok asts ->
  exists js,
    WorkflowModel.jobs wm = Ok js
    /\ List.length js
       = Nat.min (List.length (Object_entries (Workflow.jobs (WorkflowModel.raw wm))))
                 (List.length asts)
    /\ forall i j, nth_error js i = Some j ->
         exists id job a,
           nth_error (Object_entries (Workflow.jobs (WorkflowModel.raw wm))) i
           = Some (id, job)
           /\ nth_error asts i = Some a
           /\ j = JobModel.new id job (WorkflowModel.fileContent wm) a.
Proof.
  intros Hasts. unfold WorkflowModel.jobs. rewrite Hasts. cbn [bind ret].
  eexists. split; [reflexivity|]. split.
  - now rewrite length_map, zip_length.
  - intros i j Hj. apply map_zip_nth_error in Hj as ([id job] & a & H1 & H2 & ->).
    now exists id, job, a.
Qed.

Lemma jobs_pairs_by_index_witness :
  exists js,
    WorkflowModel.jobs Fixture.workflowModel = Ok js
    /\ List.length js = 2
    /\ forall i j, nth_error js i = Some j ->
         exists id job a,
           nth_error (Object_entries (Workflow.jobs (Sample.workflow (Some "CI")))) i
           = Some (id, job)
           /\ nth_error (map (fun it => JobAst.mk it Sample.src) Sample.jobEntries) i
              = Some a
           /\ j = JobModel.new id job (Sample.fileContent None) a.
Proof.
  exact (@jobs_pairs_by_index Fixture.workflowModel
           (map (fun it => JobAst.mk it Sample.src) Sample.jobEntries) eq_refl).
Defined.

(** X6: a job whose tree node is a map without a [steps] key has the
    empty list of steps, not an absent one and not an error, whatever
    the parsed job says. *)
Theorem steps_empty_without_steps_key (this : JobModel.t) (p : nat)
  (ms : list YAMLMapping) :
  MappingNode.value (JobAst.ast (JobModel.ast this)) = Some (YamlMap p ms) ->
  (forall m, In m ms -> MappingNode.key m <> "steps") ->
  JobModel.steps this = Ok [].
Proof.
  intros Hv Hno.
  assert (H : JobAst.stepAsts (JobModel.ast this) = Ok None).
  { now apply stepAsts_without_steps_key with p ms. }
  unfold JobModel.steps. rewrite H. cbn [bind isUndefined].
  now rewrite orb_true_r.
Qed.

Lemma steps_empty_without_steps_key_witness :
  JobModel.steps Fixture.callJob = Ok [].
Proof.
  apply (@steps_empty_without_steps_key Fixture.callJob 10
           [Mapping 10 "uses" (Some (YAMLScalar 16 "./.github/workflows/x.yml"))]).
  - reflexivity.
  - intros m [<- | []]. discriminate.
Defined.

(** X7: for a job whose tree node has a [steps] sequence, [steps] is
    empty when the parsed job has no steps; otherwise it has as many
    models as the shorter of the two lists, and the model at an index
    is built from the parsed step and the sequence item at that index,
    so its start line is the line of that item. *)
Theorem steps_pairs_by_index (this : JobModel.t) (p p1 p2 : nat)
  (pre post : list YAMLMapping) (xs : list YAMLNode) :
  MappingNode.value (JobAst.ast (JobModel.ast this))
  = Some (YamlMap p (pre ++ Mapping p1 "steps" (Some (YAMLSequence p2 xs)) :: post)%list) ->
  (forall m, In m pre -> MappingNode.key m <> "steps") ->
  (Job.steps (JobModel.raw this) = None -> JobModel.steps this = Ok [])
  /\ forall ss, Job.steps (JobModel.raw this) = Some ss ->
       exists l,
         JobModel.steps this = Ok l
         /\ List.length l = Nat.min (List.length ss) (List.length xs)
         /\ forall i s, nth_error l i = Some s ->
              exists st x,
                nth_error ss i = Some st
                /\ nth_error xs i = Some x
                /\ s = StepModel.new st (JobModel.fileContent this)
                         (StepAst.mk x (JobAst.src (JobModel.ast this)))
                /\ StepModel.startLine s
                   = StructuredSource.line
                       (StructuredSource.indexToPosition
                          (JobAst.src (JobModel.ast this)) (Node.startPosition x)).
Proof.
  intros Hv Hpre.
  assert (H : JobAst.stepAsts (JobModel.ast this)
              = Ok (Some (map (fun it => StepAst.mk it (JobAst.src (JobModel.ast this))) xs))).
  { now apply stepAsts_with_steps_sequence with p p1 p2 pre post. }
  unfold JobModel.steps. rewrite H. cbn [bind isUndefined]. split.
  - intros ->. reflexivity.
  - intros ss ->. cbn [isUndefined orb deref bind ret].
    eexists. split; [reflexivity|]. split.
    + now rewrite length_map, zip_length, length_map.
    + intros i s Hs.
      apply map_zip_nth_error in Hs as (st & a & H1 & H2 & ->).
      rewrite nth_error_map in H2.
      destruct (nth_error xs i) as [x|]; [|discriminate].
      injection H2 as <-. exists st, x.
      split; [exact H1|]. split; [reflexivity|]. split; reflexivity.
Qed.

Lemma steps_pairs_by_index_witness :
  exists l,
    JobModel.steps Fixture.runJob = Ok l
    /\ List.length l = 2
    /\ forall i s, nth_error l i = Some s ->
         exists st x,
           nth_error [Fixture.checkout; Fixture.fmt] i = Some st
           /\ nth_error Fixture.stepItems i = Some x
           /\ s = StepModel.new st (JobModel.fileContent Fixture.runJob)
                    (StepAst.mk x Sample.src)
           /\ StepModel.startLine s
              = StructuredSource.line
                  (StructuredSource.indexToPosition Sample.src (Node.startPosition x)).
Proof.
  refine (proj2 (@steps_pairs_by_index Fixture.runJob 25 48 50
                   [Mapping 25 "runs-on" (Some (YAMLScalar 34 "ubuntu-latest"))]
                   [] Fixture.stepItems eq_refl _)
                [Fixture.checkout; Fixture.fmt] eq_refl).
  intros m [<- | []]. discriminate.
Defined.

(** X8: the steps of a composite action come in the order of
    [runs.steps], one model per step, and all of them carry the single
    tree node the model was built with: any two report the same start
    line and the same line anchor. *)
Theorem composite_steps_share_line (this : CompositeStepModel.t) :
  map StepModel.raw (CompositeStepModel.steps this)
  = CompositeAction.steps (CompositeAction.runs (CompositeStepModel.raw this))
  /\ forall s1 s2,
       In s1 (CompositeStepModel.steps this) ->
       In s2 (CompositeStepModel.steps this) ->
       StepModel.startLine s1 = StepAst.startLine (CompositeStepModel.ast this)
       /\ StepModel.htmlUrlWithLine s1 = StepModel.htmlUrlWithLine s2.
Proof.
  unfold CompositeStepModel.steps. split.
  - rewrite map_map. simpl. apply map_id.
  - intros s1 s2 H1 H2.
    apply in_map_iff in H1 as (st1 & <- & _).
    apply in_map_iff in H2 as (st2 & <- & _).
    split; reflexivity.
Qed.

Lemma composite_steps_share_line_witness :
  let s1 := StepModel.new Fixture.checkout (Sample.fileContent None) (Sample.stepAst 7) in
  let s2 := StepModel.new Fixture.fmt (Sample.fileContent None) (Sample.stepAst 7) in
  StepModel.startLine s1 = 8
  /\ StepModel.htmlUrlWithLine s1 = StepModel.htmlUrlWithLine s2.
Proof.
  apply (proj2 (composite_steps_share_line Fixture.composite)); simpl; auto.
Defined.

(* ================================================================= *)
(** ** Step names *)

(** X9: the resolved [name] and [showable] of a step agree on a declared
    name, but rank the other fields differently: with both [uses] and
    [run], [name] is the run command and [showable] the raw [uses];
    with [uses] alone, [showable] is the raw string and [name] its text
    before the first ['@']; with nothing, [name] is empty and [showable]
    is the error text. *)
Theorem name_and_showable (obj : Step.t) (fc : FileContent.t) (ast : StepAst.t) :
  let s := StepModel.new obj fc ast in
  (forall n, Step.name obj = Some n ->
             StepModel.name s = n /\ StepModel.showable s = n)
  /\ (forall u r, Step.name obj = None -> Step.uses obj = Some u ->
                  Step.run obj = Some r ->
                  StepModel.name s = r /\ StepModel.showable s = u)
  /\ (forall u, Step.name obj = None -> Step.run obj = None ->
                Step.uses obj = Some u -> u <> EmptyString ->
                before_first_at u (StepModel.name s) /\ StepModel.showable s = u)
  /\ (forall r, Step.name obj = None -> Step.uses obj = None ->
                Step.run obj = Some r ->
                StepModel.name s = r /\ StepModel.showable s = r)
  /\ (Step.name obj = None -> Step.run obj = None -> Step.uses obj = None ->
      StepModel.name s = EmptyString
      /\ StepModel.showable s = "Error: Not showable step").
Proof.
  cbv zeta. unfold StepModel.showable, StepModel.new.
  cbn [StepModel.name StepModel.raw].
  split; [|split; [|split; [|split]]].
  - intros n ->. now split.
  - intros u r -> -> ->. now split.
  - intros u -> -> -> Hne. rewrite decompose_nonempty by assumption.
    split; [apply before_first_at_split | reflexivity].
  - intros r -> -> ->. now split.
  - intros -> -> ->. now split.
Qed.

Lemma split_at_1_Some (s r : string) :
  StepModel.split_at_1 s = Some r ->
  exists a rest, s = a ++ String "@" rest /\ free_of "@" a
                 /\ r = StepModel.split_at_0 rest.
Proof.
  intros H. destruct (before_first_at_split s) as [Hfree [E | [t E]]].
  - rewrite split_at_1_free in H; [discriminate|]. now rewrite E.
  - rewrite E in H. rewrite split_at_1_app in H by assumption.
    injection H as <-. now exists (StepModel.split_at_0 s), t.
Qed.

(** X10: the [uses] of a constructed step is defined only for a
    non-empty raw [uses]; neither its action nor its ref contains an
    ['@'], and the raw string starts with the action. *)
Theorem uses_parts_have_no_at (obj : Step.t) (fc : FileContent.t)
  (ast : StepAst.t) (u : StepModel.uses_t) :
  StepModel.uses (StepModel.new obj fc ast) = Some u ->
  free_of "@" (StepModel.action u)
  /\ (forall r, StepModel.ref u = Some r -> free_of "@" r)
  /\ exists raw rest,
       Step.uses obj = Some raw /\ raw <> EmptyString
       /\ raw = StepModel.action u ++ rest.
Proof.
  unfold StepModel.new. cbn [StepModel.uses].
  destruct (Step.uses obj) as [[|c raw]|]; simpl; try discriminate.
  intros [= <-]. cbn [StepModel.action StepModel.ref].
  destruct (before_first_at_split (String c raw)) as [Hfree Hshape].
  split; [exact Hfree|]. split.
  - intros r Hr. apply split_at_1_Some in Hr as (a & rest & _ & _ & ->).
    apply before_first_at_split.
  - exists (String c raw).
    destruct Hshape as [E | [t E]].
    + exists EmptyString. split; [reflexivity|]. split; [discriminate|].
      rewrite <- E. clear. induction (String c raw); simpl; congruence.
    + exists (String "@" t). split; [reflexivity|]. split; [discriminate|].
      exact E.
Qed.

Lemma uses_parts_have_no_at_witness :
  free_of "@" "owner/action"
  /\ (forall r, Some "user" = Some r -> free_of "@" r)
  /\ exists raw rest,
       Some "owner/action@user@fix" = Some raw /\ raw <> EmptyString
       /\ raw = "owner/action" ++ rest.
Proof.
  exact (@uses_parts_have_no_at
           (Step.mk (Some "owner/action@user@fix") None None None)
           (Sample.fileContent None) (Sample.stepAst 0)
           (StepModel.mkUses "owner/action" (Some "user")) eq_refl).
Defined.

(* ================================================================= *)
(** ** Finding steps under decorated names *)

Lemma first_such_complete {A} (P : A -> Prop) (l : list A) (r : option A) (x : A) :
  first_such P l r -> In x l -> P x -> exists y, r = Some y.
Proof.
  intros Hfirst Hin Hx. destruct r as [y|]; [now exists y|].
  exfalso. exact (Hfirst x Hin Hx).
Qed.

Lemma first_such_ext {A} (P Q : A -> Prop) (l : list A) (r : option A) :
  (forall x, In x l -> (P x <-> Q x)) ->
  first_such P l r -> first_such Q l r.
Proof.
  intros Hext. destruct r as [y|]; simpl.
  - intros (l1 & l2 & -> & Hy & Hl1). exists l1, l2.
    split; [reflexivity|]. split.
    + apply Hext; [|exact Hy]. apply in_or_app. right. now left.
    + intros z Hz HQ. apply (Hl1 z Hz). apply Hext; [|exact HQ].
      apply in_or_app. now left.
  - intros H x Hx HQ. apply (H x Hx). now apply Hext.
Qed.

Lemma replace_prefix_decorated (p n : string) :
  In p StepModel.prefixes ->
  (forall q t, In q StepModel.prefixes -> n <> q ++ t) ->
  StepModel.replace_prefix StepModel.prefixes (p ++ n) = n.
Proof.
  intros Hp Hn.
  assert (Hrun : startsWith n "Run " = false).
  { apply startsWith_false_iff. intros t. apply Hn. simpl. auto. }
  simpl in Hp, Hrun.
  destruct Hp as [<- | [<- | [<- | [<- | [<- | []]]]]]; simpl;
    rewrite ?Hrun; reflexivity.
Qed.

Lemma replace_prefix_undecorated (n : string) :
  (forall q t, In q StepModel.prefixes -> n <> q ++ t) ->
  StepModel.replace_prefix StepModel.prefixes n = n.
Proof.
  intros Hn.
  destruct (replace_prefix_stripped StepModel.prefixes n)
    as [(pre & p & post & E & Hs & _) | [_ H]]; [|exact H].
  exfalso. apply (Hn p (StepModel.replace_prefix StepModel.prefixes n));
    [|exact Hs].
  rewrite E. apply in_or_app. right. now left.
Qed.

(** X11: a step that the bare name [n] would find is also found under
    every decoration of [n]: if [n] starts with none of the five
    prefixes and is not a pseudo-step name, then for [p] empty or one of
    the prefixes, [match] on [p ++ n] returns the first step of the list
    whose resolved name is [n] or whose action is the text of [n] before
    its first ['@']; in particular it is not absent when the list has
    such a step. *)
Theorem match_finds_decorated_name (stepModels : list StepModel.t)
  (s : StepModel.t) (p n : string) :
  In s stepModels ->
  step_accepts n s ->
  (forall q t, In q StepModel.prefixes -> n <> q ++ t) ->
  n <> "Set up job" -> n <> "Complete job" ->
  p = EmptyString \/ In p StepModel.prefixes ->
  exists s',
    StepModel.match_ (Some stepModels) (p ++ n) = Ok (Some s')
    /\ first_such (step_accepts n) stepModels (Some s').
Proof.
  intros Hin Hacc Hn H1 H2 Hp.
  assert (Hstrip : StepModel.replace_prefix StepModel.prefixes (p ++ n) = n).
  { destruct Hp as [-> | Hp].
    - now apply replace_prefix_undecorated.
    - now apply replace_prefix_decorated. }
  assert (Hpseudo : strict_eq (p ++ n) "Set up job"
                    || strict_eq (p ++ n) "Complete job" = false).
  { destruct Hp as [-> | Hp].
    - apply strict_eq_false_iff in H1, H2. simpl. now rewrite H1, H2.
    - simpl in Hp.
      destruct Hp as [<- | [<- | [<- | [<- | [<- | []]]]]]; reflexivity. }
  unfold StepModel.match_. cbn [isUndefined]. rewrite Hpseudo, Hstrip.
  cbn [deref bind ret].
  pose proof (step_match_loop_first n stepModels) as Hfirst.
  destruct (@first_such_complete _ _ _ _ _ Hfirst Hin Hacc) as [s' E].
  rewrite E in Hfirst |- *. now exists s'.
Qed.

Lemma match_finds_decorated_name_witness :
  exists s',
    StepModel.match_
      (Some [Sample.step None None (Some "deno lint");
             Sample.step (Some "actions/checkout@v4") None None])
      ("Post Run " ++ "actions/checkout@v3") = Ok (Some s')
    /\ first_such (step_accepts "actions/checkout@v3")
         [Sample.step None None (Some "deno lint");
          Sample.step (Some "actions/checkout@v4") None None] (Some s').
Proof.
  apply (@match_finds_decorated_name
           [Sample.step None None (Some "deno lint");
            Sample.step (Some "actions/checkout@v4") None None]
           (Sample.step (Some "actions/checkout@v4") None None)
           "Post Run " "actions/checkout@v3").
  - simpl. auto.
  - right. exists (StepModel.mkUses "actions/checkout" (Some "v4")).
    split; [reflexivity|]. split.
    + unfold free_of. simpl. intuition discriminate.
    + right. now exists "v3".
  - intros q t Hq. simpl in Hq.
    destruct Hq as [<- | [<- | [<- | [<- | [<- | []]]]]]; discriminate.
  - discriminate.
  - discriminate.
  - right. simpl. auto.
Defined.

Lemma length_append (a b : string) :
  String.length (a ++ b) = String.length a + String.length b.
Proof. induction a as [|c a IH]; simpl; [reflexivity | now rewrite IH]. Qed.

Lemma append_nonempty_neq (p r : string) : p <> EmptyString -> p ++ r <> r.
Proof.
  intros Hp E. apply (f_equal String.length) in E.
  rewrite length_append in E.
  destruct p; [congruence | simpl in E; lia].
Qed.

(** X12: a raw name that starts with one of the five prefixes is never
    compared as it stands: when [match] returns a step whose resolved
    name is that very raw name, the step was found through its action,
    that is, it has a [uses] whose action is the text before the first
    ['@'] of the raw name without its leading prefix.  A step that only
    has a name such as ["Run tests"] is therefore not found under its
    own name. *)
Theorem prefixed_name_found_only_by_uses (stepModels : list StepModel.t)
  (rawName q t : string) (s : StepModel.t) :
  In q StepModel.prefixes ->
  rawName = q ++ t ->
  StepModel.match_ (Some stepModels) rawName = Ok (Some s) ->
  StepModel.name s = rawName ->
  exists (name : string) (u : StepModel.uses_t),
    stripped_once ["Pre Run "; "Post Run "; "Pre "; "Run "; "Post "] rawName name
    /\ name <> rawName
    /\ StepModel.uses s = Some u
    /\ before_first_at name (StepModel.action u).
Proof.
  intros Hq Hraw Hmatch Hname.
  unfold StepModel.match_ in Hmatch. cbn [isUndefined] in Hmatch.
  destruct (strict_eq rawName "Set up job" || strict_eq rawName "Complete job");
    [discriminate Hmatch|].
  cbn [deref bind] in Hmatch. unfold ret in Hmatch.
  pose proof (step_match_loop_first
                (StepModel.replace_prefix StepModel.prefixes rawName) stepModels)
    as Hfirst.
  assert (Hloop : StepModel.match_loop stepModels
                    (StepModel.replace_prefix StepModel.prefixes rawName)
                    (StepModel.split_at_0
                       (StepModel.replace_prefix StepModel.prefixes rawName))
                  = Some s) by congruence.
  clear Hmatch. rewrite Hloop in Hfirst. apply first_such_In in Hfirst as [_ Hacc].
  pose proof (replace_prefix_stripped StepModel.prefixes rawName) as Hstrip.
  assert (Hne : StepModel.replace_prefix StepModel.prefixes rawName <> rawName).
  { destruct Hstrip as [(pre & p & post & E & Hs & _) | [Hnone _]].
    - intros Heq. rewrite Heq in Hs. symmetry in Hs. revert Hs.
      apply append_nonempty_neq.
      assert (Hp : In p StepModel.prefixes)
        by (rewrite E; apply in_or_app; right; now left).
      simpl in Hp.
      destruct Hp as [<- | [<- | [<- | [<- | [<- | []]]]]]; discriminate.
    - exfalso. exact (Hnone q Hq t Hraw). }
  exists (StepModel.replace_prefix StepModel.prefixes rawName).
  destruct Hacc as [Hn | (u & Hu & Hact)]; [congruence|].
  exists u. split; [exact Hstrip|]. split; [exact Hne|].
  split; [exact Hu | exact Hact].
Qed.

Lemma prefixed_name_found_only_by_uses_witness :
  exists (name : string) (u : StepModel.uses_t),
    stripped_once ["Pre Run "; "Post Run "; "Pre "; "Run "; "Post "]
      "Run tests" name
    /\ name <> "Run tests"
    /\ StepModel.uses
         (Sample.step (Some "tests@v1") (Some "Run tests") None) = Some u
    /\ before_first_at name (StepModel.action u).
Proof.
  apply (@prefixed_name_found_only_by_uses
           [Sample.step None (Some "Run tests") None;
            Sample.step (Some "tests@v1") (Some "Run tests") None]
           "Run tests" "Run " "tests"
           (Sample.step (Some "tests@v1") (Some "Run tests") None)).
  - simpl. auto.
  - reflexivity.
  - reflexivity.
  - reflexivity.
Defined.

(* ================================================================= *)
(** ** Job lookups *)

(** X13: in a list without matrix jobs, [JobModel.match] is an exact
    lookup: it returns the first job whose id or declared name is the
    raw name, and absent when there is none. *)
Theorem match_without_matrix_is_exact (jobModels : list JobModel.t)
  (rawName : string) :
  (forall j, In j jobModels -> JobModel.isMatrix j = false) ->
  exists r,
    JobModel.match_ (Some jobModels) rawName = Ok r
    /\ first_such
         (fun j => JobModel.id j = rawName \/ JobModel.name j = Some rawName)
         jobModels r.
Proof.
  intros Hno.
  destruct (job_match_loop_first jobModels rawName) as (r & Hr & Hfirst).
  exists r. split; [exact Hr|].
  apply first_such_ext with (P := job_accepts rawName); [|exact Hfirst].
  intros j Hj. unfold job_accepts. split.
  - intros [H | [H | [Hm _]]]; auto. rewrite (Hno j Hj) in Hm. discriminate.
  - intros [H | H]; auto.
Qed.

Lemma match_without_matrix_is_exact_witness :
  exists r,
    JobModel.match_
      (Some [Sample.job "test" None false; Sample.job "test-e2e" None false])
      "test-e2e" = Ok r
    /\ first_such
         (fun j => JobModel.id j = "test-e2e" \/ JobModel.name j = Some "test-e2e")
         [Sample.job "test" None false; Sample.job "test-e2e" None false] r.
Proof.
  apply (@match_without_matrix_is_exact
           [Sample.job "test" None false; Sample.job "test-e2e" None false]
           "test-e2e").
  intros j [<- | [<- | []]]; reflexivity.
Defined.

(** X14: a matrix job whose declared name is nothing but an expression
    (the name is empty once expressions are removed and it is trimmed)
    is returned for every raw name: placed first, it hides all the jobs
    after it. *)
Theorem expression_only_name_matches_all (j : JobModel.t)
  (rest : list JobModel.t) (n rawName : string) :
  JobModel.isMatrix j = true ->
  JobModel.name j = Some n ->
  trim (JobModel.replace_expressions n) = EmptyString ->
  JobModel.match_ (Some (j :: rest)) rawName = Ok (Some j).
Proof.
  intros Hm Hn Hempty.
  change (JobModel.match_loop (j :: rest) rawName = Ok (Some j)).
  destruct (job_match_loop_step j rest rawName) as [[_ H] | [Hrej _]];
    [exact H|].
  exfalso. apply Hrej. right. right. split; [exact Hm|].
  right. exists n, EmptyString, rawName. rewrite Hempty. now split.
Qed.

Lemma expression_only_name_matches_all_witness :
  JobModel.match_
    (Some [Sample.job "build" (Some " ${{ matrix.name }} ") true;
           Sample.job "lint" None false])
    "lint"
  = Ok (Some (Sample.job "build" (Some " ${{ matrix.name }} ") true)).
Proof.
  apply (@expression_only_name_matches_all
           (Sample.job "build" (Some " ${{ matrix.name }} ") true)
           [Sample.job "lint" None false] " ${{ matrix.name }} " "lint");
    reflexivity.
Defined.

(* ================================================================= *)
(** ** Removing expressions from a name *)

Lemma free_of_append (c : ascii) (a b : string) :
  free_of c (a ++ b) <-> free_of c a /\ free_of c b.
Proof.
  induction a as [|d a IH]; simpl.
  - unfold free_of at 2. simpl. tauto.
  - rewrite !free_of_cons, IH. tauto.
Qed.

Lemma free_of_slice (c : ascii) (n : nat) (s : string) :
  free_of c s -> free_of c (slice n s).
Proof.
  revert s. induction n as [|n IH]; intros s H; simpl; [exact H|].
  destruct s as [|d s]; [exact H|]. apply IH. now apply free_of_cons in H.
Qed.

Lemma dot_star_close_none (b : string) :
  free_of "}" b -> JobModel.dot_star_close b = None.
Proof.
  induction b as [|c b IH]; intros H; [reflexivity|].
  apply free_of_cons in H as [Hc Hb].
  cbn [JobModel.dot_star_close startsWith].
  apply Ascii.eqb_neq in Hc. rewrite Hc, (IH Hb). simpl.
  now destruct (isLineTerminator c).
Qed.

Lemma expression_at_none (b : string) :
  free_of "}" b -> JobModel.expression_at b = None.
Proof.
  intros H. unfold JobModel.expression_at.
  destruct (startsWith b "${{"); [|reflexivity].
  pose proof (free_of_slice 3 H) as Hs.
  destruct (slice 3 b) as [|c s']; [reflexivity|].
  apply free_of_cons in Hs as [_ Hs].
  rewrite (dot_star_close_none Hs). now destruct (isLineTerminator c).
Qed.

Lemma expression_at_no_dollar (c : ascii) (s : string) :
  c <> "$"%char -> JobModel.expression_at (String c s) = None.
Proof.
  intros Hc. unfold JobModel.expression_at. cbn [startsWith].
  apply Ascii.eqb_neq in Hc. now rewrite Hc.
Qed.

Lemma replace_go_keeps (b : string) :
  free_of "}" b -> JobModel.replace_go 0 b = b.
Proof.
  induction b as [|c b IH]; intros H; [reflexivity|].
  cbn [JobModel.replace_go]. rewrite (expression_at_none H).
  apply free_of_cons in H as [_ Hb]. now rewrite (IH Hb).
Qed.

Lemma replace_go_before (a x : string) :
  free_of "$" a ->
  JobModel.replace_go 0 (a ++ x) = a ++ JobModel.replace_go 0 x.
Proof.
  induction a as [|c a IH]; intros H; [reflexivity|].
  apply free_of_cons in H as [Hc Ha].
  cbn [append JobModel.replace_go].
  rewrite (expression_at_no_dollar _ Hc). now rewrite (IH Ha).
Qed.

Lemma replace_go_skip (x y : string) :
  JobModel.replace_go (String.length x) (x ++ y) = JobModel.replace_go 0 y.
Proof. induction x as [|c x IH]; simpl; [reflexivity | exact IH]. Qed.

Lemma dot_star_close_cons (c : ascii) (s : string) :
  JobModel.dot_star_close (String c s)
  = let here := if startsWith (String c s) "}}" then Some 0 else None in
    if isLineTerminator c then here
    else match JobModel.dot_star_close s with
         | Some k => Some (S k)
         | None => here
         end.
Proof. reflexivity. Qed.

Lemma dot_star_close_body (e b : string) :
  (forall c, In c (list_ascii_of_string e) -> isLineTerminator c = false) ->
  free_of "}" b ->
  JobModel.dot_star_close (e ++ String "}" (String "}" b))
  = Some (String.length e).
Proof.
  intros He Hb. induction e as [|c e IH].
  - cbn [append].
    assert (H1 : JobModel.dot_star_close (String "}" b) = None).
    { rewrite dot_star_close_cons, (dot_star_close_none Hb).
      assert (H : startsWith (String "}" b) "}}" = false).
      { apply startsWith_false_iff. intros r E. injection E as ->.
        apply free_of_cons in Hb as [Hc _]. congruence. }
      now rewrite H. }
    rewrite dot_star_close_cons, H1. reflexivity.
  - cbn [append]. rewrite dot_star_close_cons.
    rewrite IH by (intros d Hd; apply He; now right).
    rewrite (He c) by now left. reflexivity.
Qed.

Lemma replace_go_cons_0 (c : ascii) (s : string) :
  JobModel.replace_go 0 (String c s)
  = match JobModel.expression_at (String c s) with
    | Some len => JobModel.replace_go (Nat.pred len) s
    | None => String c (JobModel.replace_go 0 s)
    end.
Proof. reflexivity. Qed.

Lemma append_assoc' (a b c : string) : (a ++ b) ++ c = a ++ (b ++ c).
Proof. induction a as [|x a IH]; simpl; [reflexivity | now rewrite IH]. Qed.

Lemma append_empty_r (a : string) : a ++ EmptyString = a.
Proof. induction a as [|x a IH]; simpl; [reflexivity | now rewrite IH]. Qed.

(** X15: a name in which ['$'] does not occur, or in which ['}'] does
    not occur, has no expression to remove and is left as it is. *)
Theorem replace_expressions_plain_name (s : string) :
  free_of "$" s \/ free_of "}" s ->
  JobModel.replace_expressions s = s.
Proof.
  unfold JobModel.replace_expressions. intros [H | H].
  - rewrite <- (append_empty_r s) at 1.
    rewrite replace_go_before by assumption. apply append_empty_r.
  - now apply replace_go_keeps.
Qed.

Lemma replace_expressions_plain_name_witness :
  JobModel.replace_expressions "Build (release)" = "Build (release)".
Proof.
  apply (@replace_expressions_plain_name "Build (release)").
  left. unfold free_of. simpl. intuition discriminate.
Defined.

(** X16: from a name with one expression, [a ${{ e }} b] with no ['$']
    before it, a non-empty body on one line, and no ['}'] after it,
    exactly the expression is removed: the result is [a] followed by
    [b]. *)
Theorem replace_single_expression (a e b : string) :
  free_of "$" a ->
  e <> EmptyString ->
  (forall c, In c (list_ascii_of_string e) -> isLineTerminator c = false) ->
  free_of "}" b ->
  JobModel.replace_expressions (a ++ "${{" ++ e ++ "}}" ++ b) = a ++ b.
Proof.
  intros Ha Hne He Hb. unfold JobModel.replace_expressions.
  rewrite replace_go_before by assumption. f_equal.
  destruct e as [|c e]; [congruence|].
  cbn [append]. rewrite replace_go_cons_0.
  assert (Hat : JobModel.expression_at
                  (String "$" (String "{" (String "{"
                     (String c (e ++ String "}" (String "}" b))))))
                = Some (3 + S (String.length e) + 2)).
  { unfold JobModel.expression_at.
    replace (startsWith
               (String "$" (String "{" (String "{"
                  (String c (e ++ String "}" (String "}" b)))))) "${{")
      with true by reflexivity.
    cbn [slice]. rewrite (He c) by now left.
    rewrite dot_star_close_body; [reflexivity | | assumption].
    intros d Hd. apply He. now right. }
  rewrite Hat.
  replace (String "{" (String "{" (String c (e ++ String "}" (String "}" b)))))
    with (("{{" ++ String c e ++ "}}") ++ b)
    by (cbn [append]; now rewrite append_assoc').
  replace (Nat.pred (3 + S (String.length e) + 2))
    with (String.length ("{{" ++ String c e ++ "}}"))
    by (cbn [append String.length]; rewrite length_append; simpl; lia).
  rewrite replace_go_skip. now apply replace_go_keeps.
Qed.

Lemma replace_single_expression_witness :
  JobModel.replace_expressions ("Build " ++ "${{" ++ " matrix.os " ++ "}}" ++ " (ci)")
  = "Build " ++ " (ci)".
Proof.
  apply (@replace_single_expression "Build " " matrix.os " " (ci)").
  - unfold free_of. simpl. intuition discriminate.
  - discriminate.
  - simpl. intros c H.
    repeat (destruct H as [<- | H]; [reflexivity|]). destruct H.
  - unfold free_of. simpl. intuition discriminate.
Defined.

(* ================================================================= *)
(** ** The base URL of the client *)

Lemma api_v3_is_not_default (x : string) :
  x ++ "/api/v3" <> "https://api.github.com".
Proof.
  intros E.
  repeat (destruct x as [|? x]; [discriminate E | injection E as _ E]).
  destruct x; discriminate E.
Qed.

(** X17: when the options carry a non-empty host, the base URL is the
    host, with ["https://"] put in front unless it already starts with
    it, followed by ["/api/v3"]; the environment is not consulted and
    the client is flagged as GitHub Enterprise Server. *)
Theorem baseUrl_of_host (env_get : string -> option string)
  (options : Github.options_t) (h : string) :
  Github.opt_host options = Some h ->
  h <> EmptyString ->
  let g := Github.new env_get (Some options) in
  Github.baseUrl g
  = (if startsWith h "https://" then h else "https://" ++ h) ++ "/api/v3"
  /\ startsWith (Github.baseUrl g) "https://" = true
  /\ Github.isGHES g = true.
Proof.
  intros Hh Hne. cbv zeta. unfold Github.new. cbn [Github.baseUrl Github.isGHES].
  rewrite Hh. unfold Github.getBaseUrl.
  destruct h as [|c h]; [congruence|].
  destruct (startsWith (String c h) "https://") eqn:Hs.
  - split; [reflexivity|]. split.
    + apply startsWith_iff in Hs as [r Hr]. rewrite Hr.
      apply startsWith_iff. exists (r ++ "/api/v3"). apply append_assoc'.
    + apply negb_true_iff. apply strict_eq_false_iff. apply api_v3_is_not_default.
  - split; [now rewrite append_assoc'|]. split; [reflexivity|].
    apply negb_true_iff. apply strict_eq_false_iff.
    rewrite <- append_assoc'. apply api_v3_is_not_default.
Qed.

Lemma baseUrl_of_host_witness :
  let g := Github.new (fun _ => Some "https://other.example/api")
             (Some (Github.mkOptions None (Some "github.example.com") None (Some true))) in
  Github.baseUrl g = "https://github.example.com/api/v3"
  /\ startsWith (Github.baseUrl g) "https://" = true
  /\ Github.isGHES g = true.
Proof.
  apply (@baseUrl_of_host (fun _ => Some "https://other.example/api")
           (Github.mkOptions None (Some "github.example.com") None (Some true))
           "github.example.com").
  - reflexivity.
  - discriminate.
Defined.

(* ================================================================= *)
(** ** Construction and line anchors of a workflow *)

Lemma jobAsts_of_jobs_map (this : WorkflowAst.t) (p p1 p2 : nat)
  (pre post ms : list YAMLMapping) :
  WorkflowAst.ast this
  = YamlMap p (pre ++ Mapping p1 "jobs" (Some (YamlMap p2 ms)) :: post)%list ->
  (forall m, In m pre -> MappingNode.key m <> "jobs") ->
  WorkflowAst.jobAsts this
  = Ok (map (fun it => JobAst.mk it (WorkflowAst.src this)) ms).
Proof.
  intros Hroot Hpre. unfold WorkflowAst.jobAsts. rewrite Hroot.
  cbn [Node.mappings deref bind].
  now rewrite (@find_first_key "jobs" pre post
                 (Mapping p1 "jobs" (Some (YamlMap p2 ms))) Hpre eq_refl).
Qed.

(** X19: the line anchor of the job at an index points at the tree
    entry at that index: it is the text of [htmlUrl], ["#L"], and the
    line the position index gives for the start of that entry. *)
Theorem job_anchor_points_at_entry (wm : WorkflowModel.t) (p p1 p2 : nat)
  (pre post ms : list YAMLMapping) (js : list JobModel.t) (i : nat)
  (j : JobModel.t) :
  WorkflowAst.ast (WorkflowModel.ast wm)
  = YamlMap p (pre ++ Mapping p1 "jobs" (Some (YamlMap p2 ms)) :: post)%list ->
  (forall m, In m pre -> MappingNode.key m <> "jobs") ->
  WorkflowModel.jobs wm = Ok js ->
  nth_error js i = Some j ->
  exists m,
    nth_error ms i = Some m
    /\ JobAst.ast (JobModel.ast j) = m
    /\ JobModel.htmlUrlWithLine j
       = template (null_to_undefined
                     (FileContentResponse.html_url
                        (FileContent.raw (WorkflowModel.fileContent wm))))
         ++ "#L"
         ++ Number_toString
              (StructuredSource.line
                 (StructuredSource.indexToPosition
                    (WorkflowAst.src (WorkflowModel.ast wm))
                    (MappingNode.startPosition m))).
Proof.
  intros Hroot Hpre Hjobs Hj.
  unfold WorkflowModel.jobs in Hjobs.
  rewrite (@jobAsts_of_jobs_map _ _ _ _ _ _ _ Hroot Hpre) in Hjobs.
  cbn [bind] in Hjobs. unfold ret in Hjobs. injection Hjobs as <-.
  apply map_zip_nth_error in Hj as ([id job] & a & H1 & H2 & ->).
  rewrite nth_error_map in H2.
  destruct (nth_error ms i) as [m|]; [|discriminate H2].
  injection H2 as <-. exists m. repeat split.
Qed.

Lemma job_anchor_points_at_entry_witness :
  exists m,
    nth_error Sample.jobEntries 1 = Some m
    /\ Mapping 40 "my_repo_test" (Some (YamlMap 58 [])) = m
    /\ JobModel.htmlUrlWithLine
         (JobModel.new "my_repo_test" (Sample.rawJob "test job")
            (Sample.fileContent None)
            (JobAst.mk (Mapping 40 "my_repo_test" (Some (YamlMap 58 []))) Sample.src))
       = "undefined" ++ "#L" ++ Number_toString (S (MappingNode.startPosition m)).
Proof.
  apply (@job_anchor_points_at_entry Fixture.workflowModel 0 9 14
           [Mapping 0 "name" (Some (YAMLScalar 6 "CI"))] [] Sample.jobEntries
           [JobModel.new "check" (Sample.rawJob "check job")
              (Sample.fileContent None)
              (JobAst.mk (Mapping 14 "check" (Some (YamlMap 25 []))) Sample.src);
            JobModel.new "my_repo_test" (Sample.rawJob "test job")
              (Sample.fileContent None)
              (JobAst.mk (Mapping 40 "my_repo_test" (Some (YamlMap 58 []))) Sample.src)]
           1
           (JobModel.new "my_repo_test" (Sample.rawJob "test job")
              (Sample.fileContent None)
              (JobAst.mk (Mapping 40 "my_repo_test" (Some (YamlMap 58 []))) Sample.src))).
  - reflexivity.
  - intros m [<- | []]. discriminate.
  - reflexivity.
  - reflexivity.
Defined.

(* ================================================================= *)
(** ** Declaration order and the order of object properties *)

Section ObjectOrderFacts.
Context {V : Type}.





End ObjectOrderFacts.

(** A key that starts with a letter or an underscore, as every job id
    GitHub accepts does, is not an array index. *)
Lemma array_index_starts_with_digit (c : ascii) (k : string) :
  JsObject.digit c = None -> JsObject.array_index (String c k) = None.
Proof.
  intros Hc. unfold JsObject.array_index.
  assert (Hd : JsObject.digits 0 (String c k) = None) by (simpl; now rewrite Hc).
  rewrite Hd.
  destruct c as [[] [] [] [] [] [] [] []]; destruct k; reflexivity.
Qed.



